(** * SSBot: a receipt relay bot

    A shallow embedding of the bot's three source files and the properties
    its specification states about them.

    - [src/bot.js]: the variant backed by a remote table store, module
      [SupabaseBot] (the file ends with an earlier program, which keeps the
      connected group in memory only; no property below is about it);
    - [src/unnamed/part_000] and [src/unnamed/part_001]: the variants that
      keep the connected group in a local JSON file, module [FileBot]
      ([part_001] escapes the caption fields, [part_000] does not).

    Handlers are written in a small state-and-exception monad over a
    [World] that holds the module-level variable [connectedGroupId], the
    backing store, the trace of external calls and the outcomes the
    environment gives to those calls. *)

From Stdlib Require Import ZArith List String Ascii Bool Lia.
From Stdlib Require Import Permutation Sorted.
Import ListNotations.

Local Open Scope string_scope.
Local Open Scope Z_scope.

(** ** JavaScript values and strings *)

Module Js.

(** The values that reach the code under study: a string, or one of the two
    absent values ([user.username] is [undefined] when Telegram omits it, a
    column read back from the store is [null]). A string is the sequence of
    its UTF-8 bytes; every character the code inspects is ASCII, and no byte
    of a longer UTF-8 sequence is. *)
Inductive jsval : Type :=
| JUndefined
| JNull
| JStr (s : string).

(** [!!v]: the empty string, [null] and [undefined] are falsy. *)
Definition truthy (v : jsval) : bool :=
  match v with
  | JStr EmptyString => false
  | JStr _ => true
  | _ => false
  end.

(** [v || d] for a string default [d]. *)
Definition or_str (v : jsval) (d : string) : string :=
  match v with
  | JStr s => if truthy v then s else d
  | _ => d
  end.

(** [v || null]. *)
Definition or_null (v : jsval) : jsval :=
  if truthy v then v else JNull.

(** [s.replace(/([cls])/g, "\\$1")]: every character of the class is
    replaced by a backslash followed by itself. *)
Fixpoint replace_class (cls : ascii -> bool) (s : string) : string :=
  match s with
  | EmptyString => EmptyString
  | String c r =>
      if cls c then String "\" (String c (replace_class cls r))
      else String c (replace_class cls r)
  end.

Definition in_class (cls : string) (c : ascii) : bool :=
  existsb (Ascii.eqb c) (list_ascii_of_string cls).

(** [s.split(" ")]. *)
Fixpoint split_space_aux (cur : string -> string) (s : string) : list string :=
  match s with
  | EmptyString => [cur EmptyString]
  | String c r =>
      if Ascii.eqb c " " then cur EmptyString :: split_space_aux (fun x => x) r
      else split_space_aux (fun x => cur (String c x)) r
  end.

Definition split_space (s : string) : list string :=
  split_space_aux (fun x => x) s.

(** [a.join(" ")]. *)
Fixpoint join_space (l : list string) : string :=
  match l with
  | [] => EmptyString
  | [x] => x
  | x :: r => x ++ " " ++ join_space r
  end.

(** [a.slice(1)]. *)
Definition slice1 {A : Type} (l : list A) : list A := tl l.

(** [String(n)] for an integer. *)
Fixpoint digits_aux (fuel : nat) (n : Z) (acc : string) : string :=
  match fuel with
  | O => acc
  | S f =>
      let acc' := String (ascii_of_nat (Z.to_nat (48 + n mod 10))) acc in
      if n <? 10 then acc' else digits_aux f (n / 10) acc'
  end.

Definition string_of_nonneg (n : Z) : string :=
  digits_aux (S (Z.to_nat (Z.log2 n))) n EmptyString.

Definition string_of_Z (n : Z) : string :=
  if n <? 0 then String "-" (string_of_nonneg (Z.abs n)) else string_of_nonneg n.

End Js.
Export Js.

(** ** Time: moment and moment-timezone

    A timestamp is the number of milliseconds since the Unix epoch, the value
    a moment wraps and the precision of [toISOString]; the [received_at]
    column holds such an instant. JavaScript dates follow the proleptic
    Gregorian calendar; the two conversions between a day number and a civil
    date are the usual era-based ones (an era is 400 years, 146097 days,
    and starts on a 1st of March). *)

Module Moment.

Definition msPerDay : Z := 86400000.

(** The zone ["Asia/Yangon"] as it has been since the 3rd of May 1945:
    UTC+06:30 with no daylight saving. The zone had other offsets before; the
    properties below that read an instant in the zone are about instants
    since that day, as are those the bot stamps with its clock. *)
Definition yangonOffsetMs : Z := 390 * 60000.

Definition isLeapYear (y : Z) : bool :=
  ((y mod 4 =? 0) && negb (y mod 100 =? 0)) || (y mod 400 =? 0).

Definition daysInMonth (y m : Z) : Z :=
  if m =? 2 then (if isLeapYear y then 29 else 28)
  else if (m =? 4) || (m =? 6) || (m =? 9) || (m =? 11) then 30
  else 31.

(** Day, month and year of era from the day of era (0 .. 146096). *)
Definition civil_of_doe (doe : Z) : Z * Z * Z :=
  let yoe := (doe - doe / 1460 + doe / 36524 - doe / 146096) / 365 in
  let doy := doe - (365 * yoe + yoe / 4 - yoe / 100) in
  let mp := (5 * doy + 2) / 153 in
  let d := doy - (153 * mp + 2) / 5 + 1 in
  let m := if mp <? 10 then mp + 3 else mp - 9 in
  (yoe + (if m <=? 2 then 1 else 0), m, d).

(** Civil date (year, month 1..12, day 1..31) of a day number; day 0 is
    1970-01-01. *)
Definition civil_from_days (z : Z) : Z * Z * Z :=
  let z' := z + 719468 in
  let era := z' / 146097 in
  let '(y, m, d) := civil_of_doe (z' mod 146097) in
  (y + era * 400, m, d).

(** Day of era of a date given by year of era, month and day. *)
Definition doe_of_civil (yoe m d : Z) : Z :=
  let doy := (153 * (if 2 <? m then m - 3 else m + 9) + 2) / 5 + d - 1 in
  yoe * 365 + yoe / 4 - yoe / 100 + doy.

(** Day number of a civil date. *)
Definition days_from_civil (y m d : Z) : Z :=
  let y' := if m <=? 2 then y - 1 else y in
  let era := y' / 400 in
  era * 146097 + doe_of_civil (y' mod 400) m d - 719468.

(** The calendar day, in the zone, on which an instant falls. *)
Definition localDay (t : Z) : Z := (t + yangonOffsetMs) / msPerDay.

Definition localDate (t : Z) : Z * Z * Z := civil_from_days (localDay t).

(** Milliseconds since local midnight. *)
Definition localTimeOfDay (t : Z) : Z := (t + yangonOffsetMs) mod msPerDay.

(** moment's [zeroFill(number, targetLength)]. *)
Definition zeroFill (n : Z) (len : nat) : string :=
  let a := string_of_Z (Z.abs n) in
  let zeros := string_of_list_ascii (repeat "0"%char (len - String.length a)) in
  (if 0 <=? n then EmptyString else "-") ++ zeros ++ a.

(** [moment(t).tz("Asia/Yangon").format("DD/MM/YY")]; the token [YY] is
    [year % 100], JavaScript's remainder. *)
Definition format_DDMMYY (t : Z) : string :=
  let '(y, m, d) := localDate t in
  zeroFill d 2 ++ "/" ++ zeroFill m 2 ++ "/" ++ zeroFill (Z.rem y 100) 2.

(** [moment(t).tz("Asia/Yangon").format("DD/MM/YY HH:mm:ss")]. *)
Definition format_DDMMYY_HHmmss (t : Z) : string :=
  let tod := localTimeOfDay t in
  format_DDMMYY t ++ " " ++ zeroFill (tod / 3600000) 2 ++ ":"
    ++ zeroFill (tod / 60000 mod 60) 2 ++ ":" ++ zeroFill (tod / 1000 mod 60) 2.

Definition digit (c : ascii) : option Z :=
  let n := Z.of_nat (nat_of_ascii c) in
  if (48 <=? n) && (n <=? 57) then Some (n - 48) else None.

Definition two_digits (a b : ascii) : option Z :=
  match digit a, digit b with
  | Some x, Some y => Some (10 * x + y)
  | _, _ => None
  end.

(** moment's [parseTwoDigitYear]. *)
Definition parseTwoDigitYear (yy : Z) : Z :=
  yy + (if 68 <? yy then 1900 else 2000).

(** [moment.tz(s, "DD/MM/YY", "Asia/Yangon")] on a key of the shape the date
    listing produces (two digits, a slash, two digits, a slash, two digits):
    the date it denotes, or [None] when the moment is invalid (a month
    outside 1..12 or a day outside the month). *)
Definition parse_DDMMYY (s : string) : option (Z * Z * Z) :=
  match list_ascii_of_string s with
  | [d1; d2; s1; m1; m2; s2; y1; y2] =>
      if Ascii.eqb s1 "/" && Ascii.eqb s2 "/" then
        match two_digits d1 d2, two_digits m1 m2, two_digits y1 y2 with
        | Some d, Some m, Some yy =>
            let y := parseTwoDigitYear yy in
            if (1 <=? m) && (m <=? 12) && (1 <=? d) && (d <=? daysInMonth y m)
            then Some (y, m, d) else None
        | _, _, _ => None
        end
      else None
  | _ => None
  end.

(** [.startOf("day")] of a date read in the zone, as an instant. *)
Definition startOfDay (ymd : Z * Z * Z) : Z :=
  let '(y, m, d) := ymd in days_from_civil y m d * msPerDay - yangonOffsetMs.

(** [.endOf("day")]: the last millisecond of the day. *)
Definition endOfDay (ymd : Z * Z * Z) : Z :=
  startOfDay ymd + msPerDay - 1.

End Moment.
Export Moment.

(** ** The world the handlers run in *)

Module Runtime.

(** [ctx.from]. *)
Module User.
Record t : Type := mk {
  id : Z;
  first_name : jsval;
  last_name : jsval;
  username : jsval
}.
End User.

(** A row of the [receipts] table. *)
Record Receipt : Type := mkReceipt {
  user_id : Z;
  first_name : jsval;
  last_name : jsval;
  username : jsval;
  receipt_file_id : string;
  receipt_caption : jsval;
  received_at : Z
}.

(** What a handler reads of its context: the sender, the text of the message,
    the [file_id] of each size of [ctx.message.photo] (smallest first),
    [ctx.message.caption] and [ctx.match[1]]. *)
Record Ctx : Type := mkCtx {
  from : User.t;
  text : string;
  photo : list string;
  caption : jsval;
  match1 : string
}.

(** How the environment answers an external call: it succeeds, it comes back
    with an error object (the table store only), or the promise rejects (the
    call throws). *)
Inductive outcome : Type := Success | ErrorResult | Rejects.

(** The external calls of the program. *)
Inductive call : Type :=
| SettingsUpsert (connected_group_id : jsval)
| ReceiptsInsert (r : Receipt)
| ReceiptsSelectDates
| ReceiptsSelectRange (startDate endDate : option Z)
| WriteFile (groupId : jsval)
| Reply (text : string)
| ReplyMarkdown (text : string)
| ReplyMarkdownV2 (text : string)
| ReplyKeyboard (text : string) (keyboard : list (list (string * string)))
| ReplyWithPhoto (file_id caption : string)
| SendPhoto (chat : jsval) (file_id caption parse_mode : string)
| AnswerCbQuery (text : string)
| ConsoleError (msg : string).

(** - [connectedGroupId]: the module-level variable;
    - [settings]: the [connected_group_id] of the row with id 1 of the
      [settings] table, if the row exists (in the file variants: the
      [groupId] of [connected.json], if the file exists);
    - [receipts]: the [receipts] table, in insertion order;
    - [now]: the clock, read by [moment()];
    - [faults]: the outcomes of the external calls to come, in order; past
      its end every call succeeds;
    - [trace]: the external calls made so far, each with its outcome. *)
Record World : Type := mkWorld {
  connectedGroupId : jsval;
  settings : option jsval;
  receipts : list Receipt;
  now : Z;
  faults : list outcome;
  trace : list (call * outcome)
}.

Definition with_connectedGroupId (g : jsval) (w : World) : World :=
  mkWorld g (settings w) (receipts w) (now w) (faults w) (trace w).
Definition with_settings (s : option jsval) (w : World) : World :=
  mkWorld (connectedGroupId w) s (receipts w) (now w) (faults w) (trace w).
Definition with_receipts (r : list Receipt) (w : World) : World :=
  mkWorld (connectedGroupId w) (settings w) r (now w) (faults w) (trace w).
Definition with_now (t : Z) (w : World) : World :=
  mkWorld (connectedGroupId w) (settings w) (receipts w) t (faults w) (trace w).
Definition with_faults (f : list outcome) (w : World) : World :=
  mkWorld (connectedGroupId w) (settings w) (receipts w) (now w) f (trace w).
Definition with_trace (t : list (call * outcome)) (w : World) : World :=
  mkWorld (connectedGroupId w) (settings w) (receipts w) (now w) (faults w) t.

(** What a handler can throw. *)
Inductive exn : Type :=
| StoreError
| Rejected (c : call)
| TypeError.

(** An async function: it reads and writes the world and returns or throws. *)
Definition M (A : Type) : Type := World -> (A + exn) * World.

Definition ret {A : Type} (a : A) : M A := fun w => (inl a, w).

Definition throw {A : Type} (e : exn) : M A := fun w => (inr e, w).

Definition bind {A B : Type} (m : M A) (k : A -> M B) : M B :=
  fun w =>
    match m w with
    | (inl a, w') => k a w'
    | (inr e, w') => (inr e, w')
    end.

(** [try { m } catch (err) { h err }]. *)
Definition try_catch {A : Type} (m : M A) (h : exn -> M A) : M A :=
  fun w =>
    match m w with
    | (inl a, w') => (inl a, w')
    | (inr e, w') => h e w'
    end.

Declare Scope js_scope.
Delimit Scope js_scope with js.
Notation "x <- m ;; k" := (bind m (fun x => k))
  (at level 61, m at next level, right associativity) : js_scope.
Notation "m ;; k" := (bind m (fun _ => k))
  (at level 61, right associativity) : js_scope.
Local Open Scope js_scope.

Definition gets {A : Type} (f : World -> A) : M A := fun w => (inl (f w), w).

Definition modify (f : World -> World) : M unit := fun w => (inl tt, f w).

(** The world a computation leaves, and what it returns. *)
Definition exec {A : Type} (m : M A) (w : World) : World := snd (m w).
Definition result {A : Type} (m : M A) (w : World) : A + exn := fst (m w).

(** The outcome of the next external call. *)
Definition next_outcome : M outcome :=
  fun w => (inl (hd Success (faults w)), with_faults (tl (faults w)) w).

Definition record (c : call) (o : outcome) : M unit :=
  modify (fun w => with_trace (trace w ++ [(c, o)]) w).

(** [console.error]: always goes through. *)
Definition console_error (msg : string) : M unit :=
  record (ConsoleError msg) Success.

(** A call to the Telegram API ([ctx.reply], [ctx.telegram.sendPhoto], ...)
    or to the file system: it succeeds or it throws. *)
Definition external (c : call) : M unit :=
  o <- next_outcome ;;
  record c o ;;
  match o with
  | Success => ret tt
  | _ => throw (Rejected c)
  end.

(** A call to the table store: [Some] of the data on success, [None] when
    the client returns an error object (the environment's, or the store's
    own answer to a malformed request: [run] gives [None]); the promise may
    also reject. *)
Definition store_call {A : Type} (c : call) (run : World -> option A * World)
  : M (option A) :=
  o <- next_outcome ;;
  record c o ;;
  match o with
  | Success => fun w => let (a, w') := run w in (inl a, w')
  | ErrorResult => ret None
  | Rejects => throw (Rejected c)
  end.

(** [for (const x of l) { await body(x) }]. *)
Fixpoint forEach {A : Type} (l : list A) (body : A -> M unit) : M unit :=
  match l with
  | [] => ret tt
  | x :: r => body x ;; forEach r body
  end.

(** An absent property is not sent to the store and reads back as [null]. *)
Definition column (v : jsval) : jsval :=
  match v with
  | JUndefined => JNull
  | _ => v
  end.

(** [ORDER BY received_at ASC]. *)
Fixpoint insert_by_time (r : Receipt) (l : list Receipt) : list Receipt :=
  match l with
  | [] => [r]
  | x :: l' =>
      if received_at r <=? received_at x then r :: l
      else x :: insert_by_time r l'
  end.

Definition order_by_received_at (l : list Receipt) : list Receipt :=
  fold_right insert_by_time [] l.

(** [from("receipts").select("*").gte("received_at", s).lte("received_at", e)
    .order("received_at", { ascending: true })]; a bound that is [null] (the
    ISO string of an invalid moment) is not a timestamp and the store answers
    with an error. *)
Definition select_range (startDate endDate : option Z) (rows : list Receipt)
  : option (list Receipt) :=
  match startDate, endDate with
  | Some s, Some e =>
      Some (order_by_received_at
              (filter (fun r => (s <=? received_at r) && (received_at r <=? e)) rows))
  | _, _ => None
  end.

Definition nl : string := String (ascii_of_nat 10) EmptyString.

(** The updates Telegram delivers to the bot: the commands, a press on a
    date button, and a photo message. *)
Inductive update : Type :=
| Connectgp (ctx : Ctx)
| Disconnect (ctx : Ctx)
| Help (ctx : Ctx)
| ReceiptCommand (ctx : Ctx)
| ReceiptDate (ctx : Ctx)
| Start (ctx : Ctx)
| Photo (ctx : Ctx).

Definition ctx_of (u : update) : Ctx :=
  match u with
  | Connectgp c | Disconnect c | Help c | ReceiptCommand c
  | ReceiptDate c | Start c | Photo c => c
  end.

Definition sender (u : update) : Z := User.id (from (ctx_of u)).

(** The updates arrive one at a time, each at its own instant, and each
    handler runs to its end (or to the exception it lets through) before the
    next update is taken. *)
Definition run (handle : update -> M unit) (us : list (Z * update)) (w : World)
  : World :=
  fold_left (fun w e => exec (handle (snd e)) (with_now (fst e) w)) us w.

End Runtime.
Export Runtime.

(** ** [src/bot.js]: the variant backed by the table store *)

Module SupabaseBot.
Local Open Scope js_scope.

(** [saveConnection(groupId)]: upsert the settings row, and only then update
    the variable. *)
Definition saveConnection (groupId : jsval) : M bool :=
  try_catch
    (res <- store_call (SettingsUpsert groupId)
              (fun w => (Some tt, with_settings (Some (column groupId)) w)) ;;
     match res with
     | None => console_error "Error saving connection:" ;; ret false
     | Some _ =>
         modify (with_connectedGroupId groupId) ;;
         ret true
     end)
    (fun _ => console_error "Error in saveConnection:" ;; ret false).

(** The character class of the regular expression of [escapeMarkdown]. *)
Definition escape_class : string := "_*[]()~`>#+-=|{}.!\".

(** [escapeMarkdown(text)]. *)
Definition escapeMarkdown (text : jsval) : string :=
  if negb (truthy text) then EmptyString
  else match text with
       | JStr s => replace_class (in_class escape_class) s
       | _ => EmptyString
       end.

(** The middleware [isOwner]: the handler runs for the owner only. *)
Definition isOwner (OWNER_ID : Z) (ctx : Ctx) (next : M unit) : M unit :=
  if User.id (from ctx) =? OWNER_ID then next else ret tt.

(** [ctx.message.text.split(" ").slice(1).join(" ")]. *)
Definition command_args (ctx : Ctx) : string :=
  join_space (slice1 (split_space (text ctx))).

(** [bot.command("connectgp", isOwner, ...)]. *)
Definition connectgp (OWNER_ID : Z) (ctx : Ctx) : M unit :=
  isOwner OWNER_ID ctx
    (let args := command_args ctx in
     if negb (truthy (JStr args)) then
       external (Reply "Usage: /connectgp <group_id | @username>")
     else
       success <- saveConnection (JStr args) ;;
       if success : bool then
         external (Reply ("✅ Connected to group and saved to DB: " ++ args))
       else
         external (Reply "❌ Failed to save connection to DB.")).

(** [bot.command("disconnect", isOwner, ...)]. *)
Definition disconnect (OWNER_ID : Z) (ctx : Ctx) : M unit :=
  isOwner OWNER_ID ctx
    (success <- saveConnection JNull ;;
     if success : bool then
       external (Reply "❌ Disconnected from group and updated DB.")
     else
       external (Reply "❌ Failed to update connection in DB.")).

Definition helpText : string :=
  nl ++ "*Owner Commands*" ++ nl
  ++ "/help - Shows this help message." ++ nl
  ++ "/connectgp <group_id> - Connects the bot to a group." ++ nl
  ++ "/disconnect - Disconnects the bot from the group." ++ nl
  ++ "/receipt - Fetches receipts by date." ++ nl ++ "  ".

(** [bot.command("help", isOwner, ...)]. *)
Definition help (OWNER_ID : Z) (ctx : Ctx) : M unit :=
  isOwner OWNER_ID ctx (external (ReplyMarkdown helpText)).

(** [[...new Set(l)]]: the distinct elements, in order of first occurrence. *)
Definition set_add (acc : list string) (x : string) : list string :=
  if existsb (String.eqb x) acc then acc else acc ++ [x].

Definition new_Set (l : list string) : list string :=
  fold_left set_add l [].

(** The date buckets of the listing: one key per distinct local day. *)
Definition uniqueDates (data : list Z) : list string :=
  new_Set (map format_DDMMYY data).

(** [Array.from({ length: Math.ceil(n / 3) }, (_, i) => b.slice(i * 3, i * 3 + 3))]. *)
Definition rows_of_3 {A : Type} (buttons : list A) : list (list A) :=
  map (fun i => firstn 3 (skipn (i * 3) buttons))
      (seq 0 (Nat.div (List.length buttons + 2) 3))%nat.

(** [bot.command("receipt", isOwner, ...)]. A [return ctx.reply(...)] inside
    the [try] hands the promise of the reply back without awaiting it: the
    reply is made once the block is left, and the [catch] does not see it
    fail. *)
Definition receipt (OWNER_ID : Z) (ctx : Ctx) : M unit :=
  isOwner OWNER_ID ctx
    (returned <- try_catch
       (res <- store_call ReceiptsSelectDates
                 (fun w => (Some (map received_at (receipts w)), w)) ;;
        match res with
        | None => throw StoreError
        | Some [] => ret (Some "No receipts found in database.")
        | Some data =>
            match uniqueDates data with
            | [] => ret (Some "No receipts found.")
            | dates =>
                let buttons :=
                  map (fun date => (date, "receipt_date_" ++ date)) dates in
                external (ReplyKeyboard "နေ့စွဲအားရွေးချယ်ပါ:" (rows_of_3 buttons)) ;;
                ret None
            end
        end)
       (fun _ =>
          console_error "Error fetching receipt dates:" ;;
          external (Reply "Error fetching receipt dates.") ;;
          ret None) ;;
     match returned with
     | Some text => external (Reply text)
     | None => ret tt
     end).

(** The caption of a replayed receipt. *)
Definition infoCaption (receipt : Receipt) : string :=
  let name :=
    escapeMarkdown
      (JStr (or_str (first_name receipt) "" ++ " " ++ or_str (last_name receipt) "")) in
  let username :=
    if truthy (username receipt)
    then "@" ++ escapeMarkdown (username receipt)
    else "Not Available" in
  let userId := escapeMarkdown (JStr (string_of_Z (user_id receipt))) in
  let receivedTime :=
    escapeMarkdown (JStr (format_DDMMYY_HHmmss (received_at receipt))) in
  let infoCaption :=
    nl ++ "*Receipt Info*" ++ nl
    ++ "🚹: " ++ name ++ nl
    ++ "🔗: [Profile](tg://user?id=" ++ string_of_Z (user_id receipt) ++ ")" ++ nl
    ++ "👤: " ++ username ++ nl
    ++ "🆔: `" ++ userId ++ "`" ++ nl
    ++ "🗓️: " ++ receivedTime in
  if truthy (receipt_caption receipt)
  then infoCaption ++ nl ++ nl ++ "*User Caption:*" ++ nl
       ++ escapeMarkdown (receipt_caption receipt)
  else infoCaption.

(** The receipts the date-detail handler asks the store for. *)
Definition fetch_day (dateStr : string) (rows : list Receipt)
  : option (list Receipt) :=
  let startDate := option_map startOfDay (parse_DDMMYY dateStr) in
  let endDate := option_map endOfDay (parse_DDMMYY dateStr) in
  select_range startDate endDate rows.

(** [bot.action(/receipt_date_(.+)/, isOwner, ...)]. *)
Definition receipt_date (OWNER_ID : Z) (ctx : Ctx) : M unit :=
  isOwner OWNER_ID ctx
    (let dateStr := match1 ctx in
     external (AnswerCbQuery ("Fetching receipts for " ++ dateStr ++ "...")) ;;
     returned <- try_catch
       (let startDate := option_map startOfDay (parse_DDMMYY dateStr) in
        let endDate := option_map endOfDay (parse_DDMMYY dateStr) in
        res <- store_call (ReceiptsSelectRange startDate endDate)
                 (fun w => (select_range startDate endDate (receipts w), w)) ;;
        match res with
        | None => throw StoreError
        | Some [] => ret (Some ("No receipts found for " ++ dateStr ++ "."))
        | Some data =>
            external
              (ReplyMarkdownV2
                 ("🧾 *Receipts for " ++ dateStr ++ "* ("
                  ++ string_of_Z (Z.of_nat (List.length data)) ++ " found):")) ;;
            forEach data
              (fun receipt =>
                 external (ReplyWithPhoto (receipt_file_id receipt)
                                          (infoCaption receipt))) ;;
            ret None
        end)
       (fun _ =>
          console_error "Error fetching receipts by date:" ;;
          external (Reply "An error occurred while fetching receipts.") ;;
          ret None) ;;
     match returned with
     | Some text => external (Reply text)
     | None => ret tt
     end).

Definition startMessage : string :=
  "မင်္ဂလာပါ၊ ပြေစာအား မိမိဝယ်ယူသော ပစ္စည်းအမည်ကိုရေး၍ ပို့ပေးပါ။" ++ nl ++ nl ++ "Eg: Telegram Premium".

(** [bot.start(...)]. *)
Definition start (ctx : Ctx) : M unit :=
  external (Reply startMessage).

Definition notConnected : string := "❌ Bot not connected to any group.".
Definition receiptError : string :=
  "Error processing your receipt. Please try again.".
Definition acknowledgement : string :=
  "ပြေစာအားလက်ခံရရှိပါတယ် ကျေးဇူးတင်ပါတယ်ခင်ဗျ။".

(** [ctx.message.photo[ctx.message.photo.length - 1].file_id]. *)
Definition largest_photo (ctx : Ctx) : M string :=
  match nth_error (photo ctx) (List.length (photo ctx) - 1) with
  | None => throw TypeError
  | Some p => ret p
  end.

(** The record the photo handler inserts. *)
Definition new_receipt (ctx : Ctx) (file_id : string) (myanmarTime : Z) : Receipt :=
  let user := from ctx in
  mkReceipt (User.id user) (column (User.first_name user))
            (column (User.last_name user)) (column (User.username user))
            file_id (column (or_null (caption ctx))) myanmarTime.

(** The caption of a forwarded receipt. *)
Definition botCaption (ctx : Ctx) (myanmarTime : Z) : string :=
  let user := from ctx in
  let userCaption := or_null (caption ctx) in
  let name :=
    escapeMarkdown
      (JStr (or_str (User.first_name user) "" ++ " "
             ++ or_str (User.last_name user) "")) in
  let username :=
    if truthy (User.username user)
    then "@" ++ escapeMarkdown (User.username user)
    else "Not Available" in
  let userId := escapeMarkdown (JStr (string_of_Z (User.id user))) in
  let timeStr := escapeMarkdown (JStr (format_DDMMYY_HHmmss myanmarTime)) in
  let botCaption :=
    "*New Receipt Received*" ++ nl
    ++ "🚹: " ++ name ++ nl
    ++ "🔗: [Profile](tg://user?id=" ++ string_of_Z (User.id user) ++ ")" ++ nl
    ++ "👤: " ++ username ++ nl
    ++ "🆔: `" ++ userId ++ "`" ++ nl
    ++ "🗓️: " ++ timeStr in
  if truthy userCaption
  then botCaption ++ nl ++ nl ++ "*User Caption:*" ++ nl ++ escapeMarkdown userCaption
  else botCaption.

(** [bot.on("photo", ...)]. *)
Definition on_photo (ctx : Ctx) : M unit :=
  group <- gets connectedGroupId ;;
  if negb (truthy group) then external (Reply notConnected)
  else
    photo <- largest_photo ctx ;;
    myanmarTime <- gets now ;;
    (* 1. Save to Supabase *)
    saved <- try_catch
      (res <- store_call (ReceiptsInsert (new_receipt ctx photo myanmarTime))
                (fun w =>
                   (Some tt,
                    with_receipts
                      (receipts w ++ [new_receipt ctx photo myanmarTime]) w)) ;;
       match res with
       | None => throw StoreError
       | Some _ => ret true
       end)
      (fun _ =>
         console_error "Error saving receipt to Supabase:" ;;
         external (Reply receiptError) ;;
         ret false) ;;
    if saved : bool then
      (* 2. Forward to Group *)
      try_catch
        (external (SendPhoto group photo (botCaption ctx myanmarTime) "MarkdownV2") ;;
         external (Reply acknowledgement))
        (fun _ => console_error "Error forwarding photo to group:")
    else ret tt.

End SupabaseBot.

Module SupabaseDispatch.
(** The handlers [src/bot.js] registers. *)
Definition handle (OWNER_ID : Z) (u : update) : M unit :=
  match u with
  | Connectgp ctx => SupabaseBot.connectgp OWNER_ID ctx
  | Disconnect ctx => SupabaseBot.disconnect OWNER_ID ctx
  | Help ctx => SupabaseBot.help OWNER_ID ctx
  | ReceiptCommand ctx => SupabaseBot.receipt OWNER_ID ctx
  | ReceiptDate ctx => SupabaseBot.receipt_date OWNER_ID ctx
  | Start ctx => SupabaseBot.start ctx
  | Photo ctx => SupabaseBot.on_photo ctx
  end.
End SupabaseDispatch.

(** ** [src/unnamed/part_000] and [part_001]: the variants backed by a file *)

Module FileBot.
Local Open Scope js_scope.

(** [saveConnection(groupId)]: [fs.writeFileSync] of [{ groupId }]. *)
Definition saveConnection (groupId : jsval) : M unit :=
  external (WriteFile groupId) ;;
  modify (with_settings (Some (column groupId))).

(** The character class of the regular expression of [escapeMarkdown] in
    [part_001]. *)
Definition escape_class : string := "_*()~`>#+-=|{}.!\".

(** [escapeMarkdown(text)] of [part_001]. *)
Definition escapeMarkdown (text : jsval) : string :=
  if negb (truthy text) then EmptyString
  else match text with
       | JStr s => replace_class (in_class escape_class) s
       | _ => EmptyString
       end.

Definition command_args (ctx : Ctx) : string :=
  join_space (slice1 (split_space (text ctx))).

(** [bot.command("connectgp", ...)]. *)
Definition connectgp (OWNER_ID : Z) (ctx : Ctx) : M unit :=
  if negb (User.id (from ctx) =? OWNER_ID) then ret tt
  else
    let args := command_args ctx in
    if negb (truthy (JStr args)) then
      external (Reply "Usage: /connectgp <group_id | @username>")
    else
      modify (with_connectedGroupId (JStr args)) ;;
      saveConnection (JStr args) ;;
      external (Reply ("✅ Connected to group: " ++ args)).

(** [bot.command("disconnect", ...)]. *)
Definition disconnect (OWNER_ID : Z) (ctx : Ctx) : M unit :=
  if negb (User.id (from ctx) =? OWNER_ID) then ret tt
  else
    modify (with_connectedGroupId JNull) ;;
    saveConnection JNull ;;
    external (Reply "❌ Disconnected from group.").

Definition startMessage : string :=
  "မင်္ဂလာပါခင်ဗျ ဒီBotမှာပြေစာလေးပဲပို့ပေးပါခင်ဗျ။".

(** [bot.start(...)]. *)
Definition start (ctx : Ctx) : M unit :=
  external (Reply startMessage).

Definition notConnected : string := "❌ Bot not connected to any group.".
Definition acknowledgement : string :=
  "ပြေစာအားလက်ခံရရှိပါတယ် ကျေးဇူးတင်ပါတယ်ခင်ဗျ။".

Definition largest_photo (ctx : Ctx) : M string :=
  match nth_error (photo ctx) (List.length (photo ctx) - 1) with
  | None => throw TypeError
  | Some p => ret p
  end.

(** The caption of [part_000]: the fields as they are. *)
Definition caption_000 (ctx : Ctx) (myanmarTime : string) : string :=
  let user := from ctx in
  nl ++ "*New Receipt Received*" ++ nl
  ++ "🚹: " ++ or_str (User.first_name user) "" ++ " "
  ++ or_str (User.last_name user) "" ++ nl
  ++ "🔗: [Profile](tg://user?id=" ++ string_of_Z (User.id user) ++ ")" ++ nl
  ++ "👤: " ++ (if truthy (User.username user)
                then "@" ++ or_str (User.username user) ""
                else "Not Available") ++ nl
  ++ "📞: Not Available" ++ nl
  ++ "🆔: `" ++ string_of_Z (User.id user) ++ "`" ++ nl
  ++ "🗓️: " ++ myanmarTime ++ nl.

(** The caption of [part_001]: the fields escaped. *)
Definition caption_001 (ctx : Ctx) (myanmarTime : string) : string :=
  let user := from ctx in
  let name :=
    escapeMarkdown
      (JStr (or_str (User.first_name user) "" ++ " "
             ++ or_str (User.last_name user) "")) in
  let username :=
    if truthy (User.username user)
    then "@" ++ escapeMarkdown (User.username user)
    else "Not Available" in
  let userId := escapeMarkdown (JStr (string_of_Z (User.id user))) in
  "*New Receipt Received*" ++ nl
  ++ "🚹: " ++ name ++ nl
  ++ "🔗: [Profile](tg://user?id=" ++ string_of_Z (User.id user) ++ ")" ++ nl
  ++ "👤: " ++ username ++ nl
  ++ "📞: Not Available" ++ nl
  ++ "🆔: `" ++ userId ++ "`" ++ nl
  ++ "🗓️: " ++ escapeMarkdown (JStr myanmarTime).

(** [bot.on("photo", ...)]; [escaped] tells [part_001] from [part_000]. *)
Definition on_photo (escaped : bool) (ctx : Ctx) : M unit :=
  group <- gets connectedGroupId ;;
  if negb (truthy group) then external (Reply notConnected)
  else
    t <- gets now ;;
    let myanmarTime := format_DDMMYY_HHmmss t in
    let caption :=
      if escaped then caption_001 ctx myanmarTime
      else caption_000 ctx myanmarTime in
    try_catch
      (photo <- largest_photo ctx ;;
       (* Reply to user *)
       external (Reply acknowledgement) ;;
       (* Forward to group with caption *)
       external (SendPhoto group photo caption
                           (if escaped then "MarkdownV2" else "Markdown")))
      (fun _ => console_error "Error handling photo:").

(** The handlers the file variants register; the other updates have none. *)
Definition handle (escaped : bool) (OWNER_ID : Z) (u : update) : M unit :=
  match u with
  | Connectgp ctx => connectgp OWNER_ID ctx
  | Disconnect ctx => disconnect OWNER_ID ctx
  | Start ctx => start ctx
  | Photo ctx => on_photo escaped ctx
  | _ => ret tt
  end.

End FileBot.

(** ** What the properties speak of *)

Module Markup.

(** The characters MarkdownV2 reserves: outside an entity each of them has to
    be preceded by a backslash (the characters the regular expression of
    [src/bot.js] lists, the backslash itself aside). *)
Definition reserved : string := "_*[]()~`>#+-=|{}.!".

(** A text in which no reserved character stands unescaped: read from the
    left, a backslash escapes the character after it, and every other
    character is not reserved. *)
Fixpoint well_escaped (s : string) : bool :=
  match s with
  | EmptyString => true
  | String c r =>
      if Ascii.eqb c "\" then
        match r with
        | EmptyString => false
        | String _ r' => well_escaped r'
        end
      else negb (in_class reserved c) && well_escaped r
  end.

(** The character before position [i], if any. *)
Definition before (s : string) (i : nat) : option ascii :=
  match i with
  | O => None
  | S j => String.get j s
  end.

End Markup.

Module Observe.

(** A date of the calendar: a month of the year and a day of that month. *)
Definition valid_date (ymd : Z * Z * Z) : Prop :=
  let '(y, m, d) := ymd in 1 <= m <= 12 /\ 1 <= d <= daysInMonth y m.

(** The three effects of a photo event. *)
Inductive effect : Type := Persisted | Forwarded | Acknowledged.

Definition effect_of (e : call * outcome) : list effect :=
  match e with
  | (ReceiptsInsert _, Success) => [Persisted]
  | (SendPhoto _ _ _ _, Success) => [Forwarded]
  | (Reply text, Success) =>
      if String.eqb text SupabaseBot.acknowledgement then [Acknowledged] else []
  | _ => []
  end.

(** The effects of a trace, in the order they took place. *)
Definition effects (tr : list (call * outcome)) : list effect :=
  flat_map effect_of tr.

(** The messages a trace sends to the chat of the sender, delivered or not. *)
Definition reply_of (e : call * outcome) : list string :=
  match fst e with
  | Reply t | ReplyMarkdown t | ReplyMarkdownV2 t | ReplyKeyboard t _ => [t]
  | ReplyWithPhoto _ c => [c]
  | _ => []
  end.

Definition replies (tr : list (call * outcome)) : list string :=
  flat_map reply_of tr.

(** The photos a trace sends to a group: the chat and the file. *)
Definition forward_of (e : call * outcome) : list (jsval * string) :=
  match fst e with
  | SendPhoto chat file_id _ _ => [(chat, file_id)]
  | _ => []
  end.

Definition forwards (tr : list (call * outcome)) : list (jsval * string) :=
  flat_map forward_of tr.

(** The updates every handler of which is behind the owner check. *)
Definition owner_only (u : update) : bool :=
  match u with
  | Connectgp _ | Disconnect _ | Help _ | ReceiptCommand _ | ReceiptDate _ => true
  | Start _ | Photo _ => false
  end.

(** The commands and button presses: every update but a photo. *)
Definition is_command (u : update) : bool :=
  match u with
  | Photo _ => false
  | _ => true
  end.

(** The updates on which [saveConnection] is called with a group: a
    [/connectgp] of the owner that names one. *)
Definition saves_group (OWNER_ID : Z) (u : update) : bool :=
  match u with
  | Connectgp ctx =>
      (User.id (from ctx) =? OWNER_ID)
      && truthy (JStr (SupabaseBot.command_args ctx))
  | _ => false
  end.

(** Ascending order of [received_at]. *)
Definition by_time (a b : Receipt) : Prop := received_at a <= received_at b.

(** The button of a date bucket: its label and its callback data. *)
Definition button (date : string) : string * string :=
  (date, "receipt_date_" ++ date).

(** The key that spells a date: DD/MM/YY. *)
Definition key_of_date (ymd : Z * Z * Z) : string :=
  let '(y, m, d) := ymd in
  zeroFill d 2 ++ "/" ++ zeroFill m 2 ++ "/" ++ zeroFill (Z.rem y 100) 2.

(** [f] holds of the [n] first natural numbers. *)
Fixpoint all_below (n : nat) (f : Z -> bool) : bool :=
  match n with
  | O => true
  | S k => f (Z.of_nat k) && all_below k f
  end.

(** A number of two digits at most, printed on two digits, reads back. *)
Definition two_digits_ok (n : Z) : bool :=
  match list_ascii_of_string (zeroFill n 2) with
  | [a; b] =>
      match two_digits a b with
      | Some v => v =? n
      | None => false
      end
  | _ => false
  end.

(** What a handler that only talks leaves alone: the connected group, the
    store and the clock stay, and no photo goes to a group. *)
Definition frame (w w' : World) : Prop :=
  connectedGroupId w' = connectedGroupId w /\
  settings w' = settings w /\
  receipts w' = receipts w /\
  now w' = now w /\
  forwards (trace w') = forwards (trace w).

Definition framed {A : Type} (m : M A) : Prop :=
  forall w, frame w (snd (m w)).

(** The calls that send no photo to a group. *)
Definition no_forward (c : call) : Prop :=
  match c with
  | SendPhoto _ _ _ _ => False
  | _ => True
  end.

End Observe.
Export Observe.

(** Sample data. *)
Module Sample.

Definition owner : Z := 1001.

Definition boss : User.t :=
  User.mk owner (JStr "Boss") JUndefined JUndefined.

Definition alice : User.t :=
  User.mk 7 (JStr "Al[ice]") JUndefined (JStr "a_b").

Definition photo_of (u : User.t) : Ctx :=
  mkCtx u EmptyString ["small"; "big"] (JStr "Telegram Premium!") EmptyString.

Definition command_of (u : User.t) (text : string) : Ctx :=
  mkCtx u text [] JUndefined EmptyString.

Definition press_of (u : User.t) (date : string) : Ctx :=
  mkCtx u EmptyString [] JUndefined date.

(** 2024-01-05T10:00:00+06:30. *)
Definition jan5_10h : Z := 1704425400000.

Definition connected (fs : list outcome) : World :=
  mkWorld (JStr "-100123") (Some (JStr "-100123")) [] jan5_10h fs [].

Definition receipt_at (t : Z) : Receipt :=
  mkReceipt 7 (JStr "Al") JNull JNull "file" JNull t.

(** A store with three receipts: two of the 5th of January 2024 (the later
    one first), one of the 6th, half an hour after midnight there. *)
Definition store (fs : list outcome) : World :=
  mkWorld (JStr "-100123") (Some (JStr "-100123"))
          [receipt_at (jan5_10h + 3600000);
           receipt_at (jan5_10h + 14 * 3600000 + 1800000);
           receipt_at jan5_10h]
          (jan5_10h + 86400000) fs [].

End Sample.

(** ** The rest of the code

    What the files do besides: the start of the process, and the earlier
    program at the end of [src/bot.js], which keeps the connected group in
    memory only. *)

Module SupabaseStartup.
Local Open Scope js_scope.

(** [loadConnection()] of [src/bot.js]: the row with id 1 of the settings,
    read with [.single()]. With no such row the client answers with the error
    [PGRST116] and no data, and nothing is done; with the row the variable
    takes its [connected_group_id]. The read leaves no entry in the trace,
    and [console.log] is not observed. *)
Definition loadConnection : M unit :=
  try_catch
    (o <- next_outcome ;;
     match o with
     | Success =>
         row <- gets settings ;;
         match row with
         | Some connected_group_id =>
             modify (with_connectedGroupId connected_group_id)
         | None => ret tt
         end
     | ErrorResult => console_error "Error loading connection:"
     | Rejects => throw StoreError
     end)
    (fun _ => console_error "Error in loadConnection:").

(** A start of the process: the variable is declared [null], then the
    connection is loaded and the bot is launched. *)
Definition launch : M unit :=
  modify (with_connectedGroupId JNull) ;;
  loadConnection.

End SupabaseStartup.

Module FileStartup.
Local Open Scope js_scope.

(** The start of [part_000] and [part_001], for a read that does not throw:
    the variable is declared [null], and takes the [groupId] of
    [connected.json] when the file exists and holds one. *)
Definition launch : M unit :=
  modify (with_connectedGroupId JNull) ;;
  saved <- gets settings ;;
  match saved with
  | Some groupId =>
      if truthy groupId then modify (with_connectedGroupId groupId) else ret tt
  | None => ret tt
  end.

End FileStartup.

(** The program at the end of [src/bot.js]: no store, no acknowledgement. *)
Module MemoryBot.
Local Open Scope js_scope.

Definition command_args (ctx : Ctx) : string :=
  join_space (slice1 (split_space (text ctx))).

(** [bot.command("connectgp", ...)]. *)
Definition connectgp (OWNER_ID : Z) (ctx : Ctx) : M unit :=
  if negb (User.id (from ctx) =? OWNER_ID) then ret tt
  else
    let args := command_args ctx in
    if negb (truthy (JStr args)) then
      external (Reply "Usage: /connectgp <group_id | @username>")
    else
      modify (with_connectedGroupId (JStr args)) ;;
      external (Reply ("✅ Bot connected to group: " ++ args)).

(** [bot.command("disconnectgp", ...)]. *)
Definition disconnectgp (OWNER_ID : Z) (ctx : Ctx) : M unit :=
  if negb (User.id (from ctx) =? OWNER_ID) then ret tt
  else
    modify (with_connectedGroupId JNull) ;;
    external (Reply "❌ Bot disconnected from group.").

Definition notConnected : string := "❌ Bot is not connected to any group yet.".

Definition caption (ctx : Ctx) : string :=
  let user := from ctx in
  nl ++ "📸 *New Receipt Received*" ++ nl ++ nl
  ++ "👤 Name: " ++ or_str (User.first_name user) "" ++ " "
  ++ or_str (User.last_name user) "" ++ nl
  ++ "🔗 Username: " ++ (if truthy (User.username user)
                         then "@" ++ or_str (User.username user) ""
                         else "Not Available") ++ nl
  ++ "📱 Phone: Not Available" ++ nl
  ++ "🆔 User ID: `" ++ string_of_Z (User.id user) ++ "`" ++ nl
  ++ "👤 Profile: [Open Profile](tg://user?id=" ++ string_of_Z (User.id user)
  ++ ")" ++ nl.

(** [bot.on("photo", ...)]. *)
Definition on_photo (ctx : Ctx) : M unit :=
  group <- gets connectedGroupId ;;
  if negb (truthy group) then external (Reply notConnected)
  else
    try_catch
      (photo <- match nth_error (photo ctx) (List.length (photo ctx) - 1) with
                | None => throw TypeError
                | Some p => ret p
                end ;;
       external (SendPhoto group photo (caption ctx) "Markdown"))
      (fun _ => console_error "Error forwarding photo:").

End MemoryBot.

Module Rendering.

(** How a reader of the markup takes a text: a backslash gives the character
    after it, as it is. *)
Fixpoint unescape (s : string) : string :=
  match s with
  | EmptyString => EmptyString
  | String c r =>
      if Ascii.eqb c "\" then
        match r with
        | EmptyString => EmptyString
        | String d r' => String d (unescape r')
        end
      else String c (unescape r)
  end.

(** The number of characters of a text that are in a class. *)
Fixpoint count_class (cls : ascii -> bool) (s : string) : nat :=
  match s with
  | EmptyString => O
  | String c r => ((if cls c then 1 else 0) + count_class cls r)%nat
  end.

(** The first space of a text splits it in two; a text without a space has
    no second part. *)
Fixpoint after_first_space (s : string) : string :=
  match s with
  | EmptyString => EmptyString
  | String c r => if Ascii.eqb c " " then r else after_first_space r
  end.

(** The elements of a list, each kept at its first place only. *)
Fixpoint first_occurrences (l : list string) : list string :=
  match l with
  | [] => []
  | x :: r =>
      x :: filter (fun y => negb (String.eqb y x)) (first_occurrences r)
  end.

End Rendering.

Module Zone.

(** 1945-05-03T00:00:00Z: from this instant on the zone is at UTC+06:30. *)
Definition since_1945 : Z := days_from_civil 1945 5 3 * msPerDay.

End Zone.

Module MarkdownV2.

(** The text the date detail of [src/bot.js] sends as heading, with
    [parse_mode: "MarkdownV2"]. *)
Definition heading (dateStr : string) (n : nat) : string :=
  "🧾 *Receipts for " ++ dateStr ++ "* ("
  ++ string_of_Z (Z.of_nat n) ++ " found):".

(** MarkdownV2 wants the reserved characters escaped, the characters that
    make an entity aside; an opening parenthesis makes one (the target of a
    link) only right after the closing bracket of the link text. Read from
    the left, a backslash taking the character after it: is there an opening
    parenthesis that is not escaped and does not follow an unescaped closing
    bracket? [prev] is the character just read, a space after an escape. *)
Fixpoint stray_paren_from (prev : ascii) (s : string) : bool :=
  match s with
  | EmptyString => false
  | String c r =>
      if Ascii.eqb c "\" then
        match r with
        | EmptyString => false
        | String _ r' => stray_paren_from " " r'
        end
      else if Ascii.eqb c "(" then
        negb (Ascii.eqb prev "]") || stray_paren_from c r
      else stray_paren_from c r
  end.

(** A text with no backtick (so with no code, inside which nothing but the
    backtick and the backslash needs escaping) and with such a parenthesis:
    a text the renderer refuses. *)
Definition stray_paren (s : string) : bool :=
  Nat.eqb (Rendering.count_class (Ascii.eqb "`") s) 0
  && stray_paren_from " " s.

(** The photo messages of a trace. *)
Definition photo_reply_of (e : call * outcome) : list (string * string) :=
  match fst e with
  | ReplyWithPhoto file_id caption => [(file_id, caption)]
  | _ => []
  end.

Definition photo_replies (tr : list (call * outcome)) : list (string * string) :=
  flat_map photo_reply_of tr.

End MarkdownV2.

(** ** Proof tools *)

(** Runs a handler on a world whose pending outcomes are known. *)
Ltac run_handler :=
  cbv [exec result bind ret throw try_catch gets modify next_outcome record
       console_error external store_call
       with_connectedGroupId with_settings with_receipts with_now with_faults
       with_trace connectedGroupId settings receipts now faults trace
       hd tl fst snd negb].

(** Puts a trace in the shape: the old trace, then the new calls. *)
Ltac tidy_trace := repeat rewrite <- app_assoc; cbn [app].

(** * Properties *)

(** ** Escaping *)

Lemma escape_class_covers c :
  in_class SupabaseBot.escape_class c = false ->
  Ascii.eqb c "\" = false /\ in_class Markup.reserved c = false.
Proof.
  destruct c as [[] [] [] [] [] [] [] []]; vm_compute; intros H;
    first [discriminate H | split; reflexivity].
Qed.

Lemma reserved_not_backslash c :
  in_class Markup.reserved c = true ->
  Ascii.eqb c "\" = false /\ in_class SupabaseBot.escape_class c = true.
Proof.
  destruct c as [[] [] [] [] [] [] [] []]; vm_compute; intros H;
    first [discriminate H | split; reflexivity].
Qed.

Lemma replace_class_well_escaped s :
  Markup.well_escaped (replace_class (in_class SupabaseBot.escape_class) s) = true.
Proof.
  induction s as [|c r IH]; [reflexivity|].
  cbn [replace_class].
  destruct (in_class SupabaseBot.escape_class c) eqn:E.
  - cbn [Markup.well_escaped]. rewrite Ascii.eqb_refl. exact IH.
  - destruct (escape_class_covers c E) as [E1 E2].
    cbn [Markup.well_escaped]. rewrite E1, E2. exact IH.
Qed.

Lemma replace_class_preceded s :
  forall i c,
    String.get i (replace_class (in_class SupabaseBot.escape_class) s) = Some c ->
    in_class Markup.reserved c = true ->
    Markup.before (replace_class (in_class SupabaseBot.escape_class) s) i
    = Some "\"%char.
Proof.
  induction s as [|c0 r IH]; intros i c Hget Hres.
  - destruct i; discriminate Hget.
  - destruct (reserved_not_backslash c Hres) as [Hb Hc].
    cbn [replace_class] in *.
    destruct (in_class SupabaseBot.escape_class c0) eqn:E.
    + destruct i as [|[|i]].
      * cbn in Hget. injection Hget as <-. rewrite Ascii.eqb_refl in Hb.
        discriminate Hb.
      * reflexivity.
      * cbn [String.get] in Hget. specialize (IH i c Hget Hres).
        destruct i as [|i]; [discriminate IH|exact IH].
    + destruct i as [|i].
      * cbn in Hget. injection Hget as <-. rewrite E in Hc. discriminate Hc.
      * cbn [String.get] in Hget. specialize (IH i c Hget Hres).
        destruct i as [|i]; [discriminate IH|exact IH].
Qed.

(** In [src/bot.js] the escaping function leaves no reserved character
    unescaped: its output reads as escaped pairs and unreserved characters,
    and every reserved character in it stands right after a backslash. *)
Lemma escapeMarkdown_escapes_reserved (text : jsval) :
  Markup.well_escaped (SupabaseBot.escapeMarkdown text) = true /\
  forall i c,
    String.get i (SupabaseBot.escapeMarkdown text) = Some c ->
    in_class Markup.reserved c = true ->
    Markup.before (SupabaseBot.escapeMarkdown text) i = Some "\"%char.
Proof.
  unfold SupabaseBot.escapeMarkdown.
  destruct text as [| |s]; cbn [truthy negb]; try (split; [reflexivity|]);
    try (intros [|i] c H; discriminate H).
  destruct s as [|c0 r]; cbn [negb].
  - split; [reflexivity|]. intros [|i] c H; discriminate H.
  - split; [apply replace_class_well_escaped|apply replace_class_preceded].
Qed.

(** C1. The escaping function of [src/unnamed/part_001] does not escape the
    square brackets, which MarkdownV2 reserves: on the text made of an opening
    bracket it returns the text as it is, a reserved character with no
    backslash before it, where the function of [src/bot.js] returns the
    bracket escaped. The caption [part_001] builds from a first name with
    brackets carries them unescaped. *)
Theorem escapeMarkdown_part_001_leaves_brackets :
  FileBot.escapeMarkdown (JStr "[") = "[" /\
  in_class Markup.reserved "["%char = true /\
  Markup.well_escaped (FileBot.escapeMarkdown (JStr "[")) = false /\
  Markup.before (FileBot.escapeMarkdown (JStr "[")) 0 = None /\
  SupabaseBot.escapeMarkdown (JStr "[") = "\[" /\
  FileBot.escapeMarkdown (JStr "Al[ice] ") = "Al[ice] " /\
  SupabaseBot.escapeMarkdown (JStr "Al[ice] ") = "Al\[ice\] ".
Proof. repeat split; reflexivity. Qed.

(** C9. On [null], on [undefined] and on the empty string the escaping
    function (of either file) returns the empty string. *)
Theorem escapeMarkdown_of_nothing (text : jsval) :
  text = JNull \/ text = JUndefined \/ text = JStr EmptyString ->
  SupabaseBot.escapeMarkdown text = EmptyString /\
  FileBot.escapeMarkdown text = EmptyString.
Proof.
  intros [-> | [-> | ->]]; split; reflexivity.
Qed.

Lemma escapeMarkdown_of_nothing_witness :
  SupabaseBot.escapeMarkdown JNull = EmptyString /\
  FileBot.escapeMarkdown JNull = EmptyString.
Proof.
  apply (escapeMarkdown_of_nothing JNull). left. reflexivity.
Defined.

(** The falsy values are these three. *)
Lemma truthy_false_iff (v : jsval) :
  truthy v = false <-> v = JNull \/ v = JUndefined \/ v = JStr EmptyString.
Proof.
  split.
  - destruct v as [| |[|c r]]; cbn; intros H; try discriminate H; auto.
  - intros [-> | [-> | ->]]; reflexivity.
Qed.

(** ** The calendar *)

Lemma isLeapYear_spec y :
  isLeapYear y = true <-> (y mod 4 = 0 /\ y mod 100 <> 0) \/ y mod 400 = 0.
Proof.
  unfold isLeapYear. rewrite orb_true_iff, andb_true_iff, negb_true_iff.
  rewrite !Z.eqb_eq, Z.eqb_neq. tauto.
Qed.


Lemma isLeapYear_false y :
  isLeapYear y = false -> (y mod 4 <> 0 \/ y mod 100 = 0) /\ y mod 400 <> 0.
Proof.
  intros H. destruct (isLeapYear_spec y) as [_ H2].
  split.
  - destruct (Z.eq_dec (y mod 4) 0); [|tauto].
    destruct (Z.eq_dec (y mod 100) 0); [tauto|].
    rewrite H2 in H by tauto. discriminate.
  - intros E. rewrite H2 in H by tauto. discriminate.
Qed.

Lemma month_cases m : 1 <= m <= 12 ->
  m = 1 \/ m = 2 \/ m = 3 \/ m = 4 \/ m = 5 \/ m = 6 \/ m = 7 \/ m = 8 \/
  m = 9 \/ m = 10 \/ m = 11 \/ m = 12.
Proof. lia. Qed.

Lemma yoe_of_doe doe yoe :
  0 <= yoe < 400 ->
  365 * yoe + yoe / 4 - yoe / 100 <= doe
    < 365 * (yoe + 1) + (yoe + 1) / 4 - (yoe + 1) / 100 + (yoe + 1) / 400 ->
  (doe - doe / 1460 + doe / 36524 - doe / 146096) / 365 = yoe.
Proof.
  intros H1 H2. Z.div_mod_to_equations. lia.
Qed.


Lemma daysInMonth_cases y m :
  (m = 2 /\ daysInMonth y m = (if isLeapYear y then 29 else 28)) \/
  ((m = 4 \/ m = 6 \/ m = 9 \/ m = 11) /\ daysInMonth y m = 30) \/
  (m <> 2 /\ m <> 4 /\ m <> 6 /\ m <> 9 /\ m <> 11 /\ daysInMonth y m = 31).
Proof.
  unfold daysInMonth.
  destruct (Z.eqb_spec m 2); [left; split; [assumption|reflexivity]|].
  destruct (Z.eqb_spec m 4); [right; left; simpl; lia|].
  destruct (Z.eqb_spec m 6); [right; left; simpl; lia|].
  destruct (Z.eqb_spec m 9); [right; left; simpl; lia|].
  destruct (Z.eqb_spec m 11); [right; left; simpl; lia|].
  right; right. simpl. lia.
Qed.


Lemma civil_of_doe_inv doe :
  0 <= doe < 146097 ->
  let '(y, m, d) := civil_of_doe doe in
  let yoe := if m <=? 2 then y - 1 else y in
  0 <= yoe < 400 /\ valid_date (y, m, d) /\ doe_of_civil yoe m d = doe.
Proof.
  intros H. unfold civil_of_doe, doe_of_civil, valid_date.
  remember ((doe - doe / 1460 + doe / 36524 - doe / 146096) / 365) as yoe eqn:Eyoe.
  remember (doe - (365 * yoe + yoe / 4 - yoe / 100)) as doy eqn:Edoy.
  remember ((5 * doy + 2) / 153) as mp eqn:Emp.
  assert (Hy : 0 <= yoe <= 399 /\ 0 <= doy <= 365 /\
    doe < 365 * (yoe + 1) + (yoe + 1) / 4 - (yoe + 1) / 100 + (yoe + 1) / 400).
  { subst doy yoe. Z.div_mod_to_equations. lia. }
  clear Eyoe.
  assert (Hmp : 0 <= mp <= 11) by (subst mp; Z.div_mod_to_equations; lia).
  remember (doy - (153 * mp + 2) / 5 + 1) as d eqn:Ed.
  assert (Hd : 1 <= d <= 31).
  { subst d mp. Z.div_mod_to_equations. lia. }
  remember (if mp <? 10 then mp + 3 else mp - 9) as m eqn:Em.
  assert (Hm : (mp < 10 /\ m = mp + 3) \/ (10 <= mp /\ m = mp - 9)).
  { subst m. destruct (Z.ltb_spec mp 10); lia. }
  clear Em.
  remember (yoe + (if m <=? 2 then 1 else 0)) as y eqn:Ey.
  assert (Hyy : (m <= 2 /\ y = yoe + 1) \/ (3 <= m /\ y = yoe)).
  { subst y. destruct (Z.leb_spec m 2); lia. }
  clear Ey.
  replace (if m <=? 2 then y - 1 else y) with yoe
    by (destruct (Z.leb_spec m 2); lia).
  replace (if 2 <? m then m - 3 else m + 9) with mp
    by (destruct (Z.ltb_spec 2 m); lia).
  split; [lia|]. split; [|lia].
  split; [lia|]. split; [lia|].
  destruct (daysInMonth_cases y m) as [[E ->]|[[E ->]|(_&_&_&_&_&->)]].
  - destruct (isLeapYear y) eqn:L.
    + subst d mp. Z.div_mod_to_equations. lia.
    + apply isLeapYear_false in L.
      assert (Hy1 : y = yoe + 1) by lia. subst y.
      assert (doy <= 364); [|subst d mp; Z.div_mod_to_equations; lia].
      subst doy. clear Emp Hmp Hd Ed Hm Hyy. Z.div_mod_to_equations. lia.
  - subst d mp. clear Edoy. Z.div_mod_to_equations. lia.
  - lia.
Qed.
Lemma days_from_civil_from_days z :
  let '(y, m, d) := civil_from_days z in days_from_civil y m d = z.
Proof.
  unfold civil_from_days.
  pose proof (civil_of_doe_inv ((z + 719468) mod 146097)) as H.
  destruct (civil_of_doe ((z + 719468) mod 146097)) as [[y m] d].
  specialize (H ltac:(apply Z.mod_pos_bound; lia)).
  cbv zeta in H. destruct H as (Hy & [Hm Hd] & Hdoe).
  unfold days_from_civil.
  assert (E : (if m <=? 2 then y + (z + 719468) / 146097 * 400 - 1
               else y + (z + 719468) / 146097 * 400)
              = (if m <=? 2 then y - 1 else y) + (z + 719468) / 146097 * 400).
  { destruct (m <=? 2); lia. }
  rewrite E. clear E.
  set (yoe := if m <=? 2 then y - 1 else y) in *.
  rewrite Z.div_add by lia. rewrite Z.mod_add by lia.
  rewrite (Z.div_small yoe 400) by lia. rewrite (Z.mod_small yoe 400) by lia.
  rewrite Hdoe. pose proof (Z.div_mod (z + 719468) 146097 ltac:(lia)). lia.
Qed.

Lemma civil_from_days_from_civil y m d :
  valid_date (y, m, d) -> civil_from_days (days_from_civil y m d) = (y, m, d).
Proof.
  intros [Hm Hd]. unfold days_from_civil, civil_from_days.
  set (y' := if m <=? 2 then y - 1 else y).
  assert (Hy : y = y' + (if m <=? 2 then 1 else 0)).
  { subst y'. destruct (m <=? 2); lia. }
  remember (y' / 400) as era eqn:Eera. remember (y' mod 400) as yoe eqn:Eyoe.
  assert (Hyoe : 0 <= yoe < 400) by (subst yoe; apply Z.mod_pos_bound; lia).
  assert (Hy' : y' = era * 400 + yoe).
  { subst era yoe. pose proof (Z.div_mod y' 400 ltac:(lia)). lia. }
  clear Eera Eyoe. clearbody y'.
  remember (if 2 <? m then m - 3 else m + 9) as mp eqn:Emp.
  assert (Hmp : (3 <= m /\ mp = m - 3) \/ (m <= 2 /\ mp = m + 9)).
  { subst mp. destruct (Z.ltb_spec 2 m); lia. }
  assert (Edoe : doe_of_civil yoe m d
                 = 365 * yoe + yoe / 4 - yoe / 100 + ((153 * mp + 2) / 5 + d - 1)).
  { unfold doe_of_civil. rewrite <- Emp. lia. }
  clear Emp.
  remember (doe_of_civil yoe m d) as doe eqn:Edoe'. clear Edoe'.
  assert (Hfeb : m = 2 -> d <= 28 \/
       (d = 29 /\ (yoe + 1) / 4 - (yoe + 1) / 100 + (yoe + 1) / 400
                  = yoe / 4 - yoe / 100 + 1)).
  { intros ->. destruct (daysInMonth_cases y 2) as [[_ E]|[[? _]|[? _]]]; try lia.
    rewrite E in Hd. change (2 <=? 2) with true in Hy. cbv iota in Hy.
    destruct (isLeapYear y) eqn:L; [|lia].
    apply isLeapYear_spec in L.
    destruct (Z.eq_dec d 29); [right; split; [assumption|]|lia].
    clear Hd Edoe Hmp. subst y y'.
    Z.div_mod_to_equations. lia. }
  assert (Hd' : (m = 4 \/ m = 6 \/ m = 9 \/ m = 11 -> d <= 30) /\ 1 <= d <= 31).
  { destruct (daysInMonth_cases y m) as [[-> E]|[[? E]|(?&?&?&?&?&E)]].
    - rewrite E in Hd. destruct (isLeapYear y); lia.
    - lia.
    - lia. }
  assert (Hb : 365 * yoe + yoe / 4 - yoe / 100 <= doe
      < 365 * (yoe + 1) + (yoe + 1) / 4 - (yoe + 1) / 100 + (yoe + 1) / 400).
  { destruct (month_cases m Hm) as [E|[E|[E|[E|[E|[E|[E|[E|[E|[E|[E|E]]]]]]]]]]];
      try specialize (Hfeb E); clear Hd; Z.div_mod_to_equations; lia. }
  assert (Emp2 : (5 * ((153 * mp + 2) / 5 + d - 1) + 2) / 153 = mp).
  { destruct (month_cases m Hm) as [E|[E|[E|[E|[E|[E|[E|[E|[E|[E|[E|E]]]]]]]]]]];
      try specialize (Hfeb E); clear Hd Hb Edoe; Z.div_mod_to_equations; lia. }
  assert (Em : (if mp <? 10 then mp + 3 else mp - 9) = m).
  { destruct (Z.ltb_spec mp 10); lia. }
  assert (Hc : civil_of_doe doe = (yoe + (if m <=? 2 then 1 else 0), m, d)).
  { unfold civil_of_doe. rewrite (yoe_of_doe doe yoe Hyoe Hb).
    replace (doe - (365 * yoe + yoe / 4 - yoe / 100))
      with ((153 * mp + 2) / 5 + d - 1) by lia.
    rewrite Emp2, Em. f_equal. lia. }
  assert (Hrange : 0 <= doe < 146097).
  { clear Edoe Emp2 Hc. Z.div_mod_to_equations. lia. }
  rewrite Z.sub_add.
  replace ((era * 146097 + doe) / 146097) with era
    by (apply Z.div_unique with doe; lia).
  replace ((era * 146097 + doe) mod 146097) with doe
    by (apply Z.mod_unique with era; lia).
  rewrite Hc. f_equal. f_equal. lia.
Qed.

Lemma isLeapYear_shift y e : isLeapYear (y + e * 400) = isLeapYear y.
Proof.
  unfold isLeapYear.
  replace ((y + e * 400) mod 4) with (y mod 4)
    by (Z.div_mod_to_equations; lia).
  replace ((y + e * 400) mod 100) with (y mod 100)
    by (Z.div_mod_to_equations; lia).
  replace ((y + e * 400) mod 400) with (y mod 400)
    by (Z.div_mod_to_equations; lia).
  reflexivity.
Qed.


Lemma civil_from_days_valid z :
  let '(y, m, d) := civil_from_days z in valid_date (y, m, d).
Proof.
  unfold civil_from_days.
  pose proof (civil_of_doe_inv ((z + 719468) mod 146097)) as H.
  destruct (civil_of_doe ((z + 719468) mod 146097)) as [[y m] d].
  specialize (H ltac:(apply Z.mod_pos_bound; lia)).
  cbv zeta in H. destruct H as (_ & [Hm Hd] & _).
  split; [exact Hm|]. unfold daysInMonth in *.
  rewrite isLeapYear_shift. exact Hd.
Qed.

(** An instant falls on a date of the calendar exactly when it lies between
    the start and the end of that day in the zone, both included. *)
Lemma localDate_iff_range t ymd :
  valid_date ymd ->
  localDate t = ymd <-> startOfDay ymd <= t <= endOfDay ymd.
Proof.
  destruct ymd as [[y m] d]. intros Hv.
  unfold localDate, endOfDay, startOfDay, localDay.
  set (off := yangonOffsetMs).
  assert (Hms : msPerDay = 86400000) by reflexivity.
  pose proof (Z.div_mod (t + off) msPerDay ltac:(lia)) as Hdm.
  pose proof (Z.mod_pos_bound (t + off) msPerDay ltac:(lia)) as Hb.
  split.
  - intros E.
    pose proof (days_from_civil_from_days ((t + off) / msPerDay)) as Hinv.
    rewrite E in Hinv. rewrite Hinv. lia.
  - intros Hr.
    replace ((t + off) / msPerDay) with (days_from_civil y m d).
    + apply civil_from_days_from_civil. exact Hv.
    + apply Z.div_unique with (t + off - msPerDay * days_from_civil y m d); lia.
Qed.

(** A key that parses denotes a date of the calendar, in the years 1969 to
    2068. *)
Lemma parse_DDMMYY_valid s ymd :
  parse_DDMMYY s = Some ymd ->
  valid_date ymd /\ 1969 <= fst (fst ymd) <= 2068.
Proof.
  unfold parse_DDMMYY.
  destruct (list_ascii_of_string s) as [|d1 [|d2 [|s1 [|m1 [|m2 [|s2 [|y1 [|y2 [|? ?]]]]]]]]];
    try discriminate.
  destruct (Ascii.eqb s1 "/" && Ascii.eqb s2 "/"); [|discriminate].
  destruct (two_digits d1 d2) as [d|]; [|discriminate].
  destruct (two_digits m1 m2) as [m|]; [|discriminate].
  destruct (two_digits y1 y2) as [yy|] eqn:Ey; [|discriminate].
  destruct ((1 <=? m) && (m <=? 12) && (1 <=? d)
            && (d <=? daysInMonth (parseTwoDigitYear yy) m)) eqn:E;
    [|discriminate].
  intros H. injection H as <-.
  apply andb_true_iff in E as [E E4]. apply andb_true_iff in E as [E E3].
  apply andb_true_iff in E as [E1 E2].
  apply Z.leb_le in E1, E2, E3, E4.
  split; [split; lia|]. cbn [fst].
  unfold two_digits in Ey.
  destruct (digit y1) as [a|] eqn:Ea; [|discriminate].
  destruct (digit y2) as [b|] eqn:Eb; [|discriminate].
  assert (Hyy : yy = 10 * a + b) by (injection Ey as <-; reflexivity).
  clear Ey.
  assert (Hdig : forall c v, digit c = Some v -> 0 <= v <= 9).
  { intros c v. unfold digit.
    destruct ((48 <=? Z.of_nat (nat_of_ascii c))
              && (Z.of_nat (nat_of_ascii c) <=? 57)) eqn:Ec; [|discriminate].
    intros Hv. injection Hv as <-.
    apply andb_true_iff in Ec as [Ec1 Ec2]. apply Z.leb_le in Ec1, Ec2. lia. }
  pose proof (Hdig _ _ Ea). pose proof (Hdig _ _ Eb).
  unfold parseTwoDigitYear. destruct (Z.ltb_spec 68 yy); lia.
Qed.

(** ** The store's ordering *)

Lemma insert_by_time_perm r l : Permutation (r :: l) (insert_by_time r l).
Proof.
  induction l as [|x l IH]; cbn [insert_by_time]; [reflexivity|].
  destruct (received_at r <=? received_at x); [reflexivity|].
  rewrite perm_swap. apply perm_skip. exact IH.
Qed.

Lemma insert_by_time_sorted r l :
  Sorted by_time l -> Sorted by_time (insert_by_time r l).
Proof.
  induction 1 as [|x l Hs IH Hhd]; cbn [insert_by_time].
  - repeat constructor.
  - destruct (Z.leb_spec (received_at r) (received_at x)) as [Hle|Hgt].
    + constructor; [constructor; assumption|constructor; exact Hle].
    + constructor; [exact IH|].
      destruct l as [|z l]; cbn [insert_by_time].
      * constructor. unfold by_time. lia.
      * destruct (received_at r <=? received_at z).
        -- constructor. unfold by_time. lia.
        -- constructor. inversion Hhd. assumption.
Qed.

Lemma order_by_received_at_perm l : Permutation l (order_by_received_at l).
Proof.
  induction l as [|x l IH]; [reflexivity|].
  cbn [order_by_received_at fold_right].
  rewrite <- insert_by_time_perm. apply perm_skip. exact IH.
Qed.

Lemma order_by_received_at_sorted l : Sorted by_time (order_by_received_at l).
Proof.
  induction l as [|x l IH]; [constructor|].
  cbn [order_by_received_at fold_right]. apply insert_by_time_sorted. exact IH.
Qed.

(** ** The set of date keys *)

Lemma existsb_eqb_In x l : existsb (String.eqb x) l = true <-> In x l.
Proof.
  rewrite existsb_exists. split.
  - intros [y [Hy E]]. apply String.eqb_eq in E. subst y. exact Hy.
  - intros H. exists x. split; [exact H|apply String.eqb_refl].
Qed.

Lemma fold_set_add_spec l :
  forall acc,
    NoDup acc ->
    NoDup (fold_left SupabaseBot.set_add l acc) /\
    (forall x, In x (fold_left SupabaseBot.set_add l acc) <-> In x acc \/ In x l).
Proof.
  induction l as [|y l IH]; intros acc Hnd; cbn [fold_left].
  - split; [exact Hnd|]. intros x. cbn. tauto.
  - unfold SupabaseBot.set_add at 2 4.
    destruct (existsb (String.eqb y) acc) eqn:E.
    + apply existsb_eqb_In in E.
      destruct (IH acc Hnd) as [H1 H2]. split; [exact H1|].
      intros x. rewrite H2. cbn. intuition (subst; auto).
    + assert (Hy : ~ In y acc).
      { intros Hin. apply existsb_eqb_In in Hin. congruence. }
      assert (Hnd' : NoDup (acc ++ [y])).
      { apply NoDup_app; [exact Hnd|repeat constructor; intros []|].
        intros a Ha [<-|[]]. exact (Hy Ha). }
      destruct (IH (acc ++ [y])%list Hnd') as [H1 H2]. split; [exact H1|].
      intros x. rewrite H2, in_app_iff. cbn. tauto.
Qed.

Lemma new_Set_spec l :
  NoDup (SupabaseBot.new_Set l) /\
  forall x, In x (SupabaseBot.new_Set l) <-> In x l.
Proof.
  destruct (fold_set_add_spec l [] (NoDup_nil _)) as [H1 H2].
  split; [exact H1|]. intros x. unfold SupabaseBot.new_Set. rewrite H2.
  cbn. tauto.
Qed.

(** ** Running the handlers *)

(** What the photo handler of [src/bot.js] does when the bot is connected,
    by the outcomes of its calls: the insertion, then the forwarding or the
    error message, then the acknowledgement. *)
Lemma on_photo_connected ctx w p :
  truthy (connectedGroupId w) = true ->
  nth_error (photo ctx) (List.length (photo ctx) - 1) = Some p ->
  let r := SupabaseBot.new_receipt ctx p (now w) in
  let fwd := SendPhoto (connectedGroupId w) p
               (SupabaseBot.botCaption ctx (now w)) "MarkdownV2" in
  let o1 := hd Success (faults w) in
  let o2 := hd Success (tl (faults w)) in
  let o3 := hd Success (tl (tl (faults w))) in
  let w' := exec (SupabaseBot.on_photo ctx) w in
  connectedGroupId w' = connectedGroupId w /\
  settings w' = settings w /\
  match o1, o2, o3 with
  | Success, Success, Success =>
      receipts w' = (receipts w ++ [r])%list /\
      trace w' = (trace w ++ [(ReceiptsInsert r, Success); (fwd, Success);
                              (Reply SupabaseBot.acknowledgement, Success)])%list
  | Success, Success, _ =>
      receipts w' = (receipts w ++ [r])%list /\
      trace w' = (trace w ++ [(ReceiptsInsert r, Success); (fwd, Success);
                              (Reply SupabaseBot.acknowledgement, o3);
                              (ConsoleError "Error forwarding photo to group:",
                               Success)])%list
  | Success, _, _ =>
      receipts w' = (receipts w ++ [r])%list /\
      trace w' = (trace w ++ [(ReceiptsInsert r, Success); (fwd, o2);
                              (ConsoleError "Error forwarding photo to group:",
                               Success)])%list
  | _, _, _ =>
      receipts w' = receipts w /\
      trace w' = (trace w ++ [(ReceiptsInsert r, o1);
                              (ConsoleError "Error saving receipt to Supabase:",
                               Success);
                              (Reply SupabaseBot.receiptError, o2)])%list
  end.
Proof.
  destruct w as [g st rs t fs tr]. cbn [connectedGroupId faults].
  intros Hc Hp. cbv zeta. unfold SupabaseBot.on_photo, SupabaseBot.largest_photo.
  run_handler. rewrite Hc, Hp. run_handler.
  destruct fs as [|[] [|[] [|[] fs]]]; run_handler; tidy_trace;
    repeat split; reflexivity.
Qed.

(** The same for the photo handler of the file variants: the
    acknowledgement, then the forwarding; nothing is stored. *)
Lemma file_on_photo_connected (escaped : bool) ctx w p :
  truthy (connectedGroupId w) = true ->
  nth_error (photo ctx) (List.length (photo ctx) - 1) = Some p ->
  let myanmarTime := format_DDMMYY_HHmmss (now w) in
  let fwd := SendPhoto (connectedGroupId w) p
               (if escaped then FileBot.caption_001 ctx myanmarTime
                else FileBot.caption_000 ctx myanmarTime)
               (if escaped then "MarkdownV2" else "Markdown") in
  let o1 := hd Success (faults w) in
  let o2 := hd Success (tl (faults w)) in
  let w' := exec (FileBot.on_photo escaped ctx) w in
  connectedGroupId w' = connectedGroupId w /\
  settings w' = settings w /\
  receipts w' = receipts w /\
  match o1, o2 with
  | Success, Success =>
      trace w' = (trace w ++ [(Reply FileBot.acknowledgement, Success);
                              (fwd, Success)])%list
  | Success, _ =>
      trace w' = (trace w ++ [(Reply FileBot.acknowledgement, Success);
                              (fwd, o2);
                              (ConsoleError "Error handling photo:", Success)])%list
  | _, _ =>
      trace w' = (trace w ++ [(Reply FileBot.acknowledgement, o1);
                              (ConsoleError "Error handling photo:", Success)])%list
  end.
Proof.
  destruct w as [g st rs t fs tr]. cbn [connectedGroupId faults].
  intros Hc Hp. cbv zeta. unfold FileBot.on_photo, FileBot.largest_photo.
  run_handler. rewrite Hc, Hp. run_handler.
  destruct fs as [|[] [|[] fs]]; run_handler; tidy_trace;
    repeat split; reflexivity.
Qed.

Lemma effects_app a b : effects (a ++ b) = (effects a ++ effects b)%list.
Proof. apply flat_map_app. Qed.

Lemma replies_app a b : replies (a ++ b) = (replies a ++ replies b)%list.
Proof. apply flat_map_app. Qed.

Lemma forwards_app a b : forwards (a ++ b) = (forwards a ++ forwards b)%list.
Proof. apply flat_map_app. Qed.

(** ** The connection store *)

(** C4. [saveConnection] of [src/bot.js]: when the write to the store fails
    (the client returns an error, or the call throws) it returns [false] and
    leaves the connected-group variable as it was; when the write succeeds it
    returns [true] and the variable holds the group. So the variable changes
    only on a write that succeeded. *)
Theorem saveConnection_write_failure (groupId : jsval) (w : World) :
  let w' := exec (SupabaseBot.saveConnection groupId) w in
  (hd Success (faults w) <> Success ->
     result (SupabaseBot.saveConnection groupId) w = inl false /\
     connectedGroupId w' = connectedGroupId w /\
     settings w' = settings w) /\
  (hd Success (faults w) = Success ->
     result (SupabaseBot.saveConnection groupId) w = inl true /\
     connectedGroupId w' = groupId /\
     settings w' = Some (column groupId)) /\
  (connectedGroupId w' <> connectedGroupId w -> hd Success (faults w) = Success).
Proof.
  destruct w as [g st rs t fs tr]. unfold SupabaseBot.saveConnection.
  destruct fs as [|[] fs]; run_handler;
    (split; [intros H|split; intros H]);
    first [ discriminate H
          | exfalso; apply H; reflexivity
          | repeat split; reflexivity ].
Qed.

Lemma saveConnection_write_failure_witness :
  let w := Sample.connected [ErrorResult] in
  let w' := exec (SupabaseBot.saveConnection JNull) w in
  result (SupabaseBot.saveConnection JNull) w = inl false /\
  connectedGroupId w' = JStr "-100123" /\
  settings w' = Some (JStr "-100123").
Proof.
  apply (saveConnection_write_failure JNull (Sample.connected [ErrorResult])).
  cbn. discriminate.
Defined.

(** ** The owner check *)

(** C5. A command, or a press on a date button, from a sender who is not the
    owner changes nothing: the connected-group variable, the settings and the
    receipts stay as they were. The handlers behind the owner check do
    nothing at all (the world is left as it is: no call, no reply); the only
    reply a sender who is not the owner can get is the greeting of [/start].
    This holds for [src/bot.js] and for the file variants. *)
Theorem non_owner_commands_change_nothing (OWNER_ID : Z) (u : update) (w : World) :
  is_command u = true ->
  sender u <> OWNER_ID ->
  (owner_only u = true ->
     exec (SupabaseDispatch.handle OWNER_ID u) w = w /\
     forall escaped, exec (FileBot.handle escaped OWNER_ID u) w = w) /\
  (let w' := exec (SupabaseDispatch.handle OWNER_ID u) w in
   connectedGroupId w' = connectedGroupId w /\
   settings w' = settings w /\
   receipts w' = receipts w /\
   (trace w' = trace w \/
    exists ctx, u = Start ctx /\
      trace w' = (trace w ++ [(Reply SupabaseBot.startMessage,
                               hd Success (faults w))])%list)) /\
  (forall escaped,
   let w' := exec (FileBot.handle escaped OWNER_ID u) w in
   connectedGroupId w' = connectedGroupId w /\
   settings w' = settings w /\
   receipts w' = receipts w /\
   (trace w' = trace w \/
    exists ctx, u = Start ctx /\
      trace w' = (trace w ++ [(Reply FileBot.startMessage,
                               hd Success (faults w))])%list)).
Proof.
  intros Hcmd Hne. unfold sender in Hne.
  apply Z.eqb_neq in Hne.
  destruct u as [ctx|ctx|ctx|ctx|ctx|ctx|ctx]; cbn [ctx_of] in Hne;
    try discriminate Hcmd;
    cbn [SupabaseDispatch.handle FileBot.handle owner_only];
    unfold SupabaseBot.connectgp, SupabaseBot.disconnect, SupabaseBot.help,
      SupabaseBot.receipt, SupabaseBot.receipt_date, SupabaseBot.isOwner,
      FileBot.connectgp, FileBot.disconnect;
    try rewrite Hne; cbn [negb];
    try (repeat split; intros; try reflexivity; left; reflexivity).
  (* /start *)
  split; [intros H; discriminate H|].
  unfold SupabaseBot.start, FileBot.start.
  destruct w as [g st rs t fs tr].
  split; [|intros escaped]; destruct fs as [|[] fs]; run_handler;
    repeat split; right; exists ctx; split; reflexivity.
Qed.

Lemma non_owner_commands_change_nothing_witness :
  let u := Disconnect (Sample.command_of Sample.alice "/disconnect") in
  exec (SupabaseDispatch.handle Sample.owner u) (Sample.connected []) = Sample.connected [] /\
  forall escaped,
    exec (FileBot.handle escaped Sample.owner u) (Sample.connected []) = Sample.connected [].
Proof.
  apply (non_owner_commands_change_nothing Sample.owner
           (Disconnect (Sample.command_of Sample.alice "/disconnect"))
           (Sample.connected [])).
  - reflexivity.
  - cbn. discriminate.
  - reflexivity.
Defined.

(** ** The photo handler *)

Section ConnectedPhoto.

(** A photo event with the bot connected; [p] is the largest size of the
    photo. *)
Variables (ctx : Ctx) (w : World) (p : string).
Hypothesis connected : truthy (connectedGroupId w) = true.
Hypothesis largest :
  nth_error (photo ctx) (List.length (photo ctx) - 1) = Some p.

(** C7. In [src/bot.js], when the bot is connected and the insertion of the
    receipt fails (an error comes back, or the call throws), the handler logs
    the error, sends the sender the error message and stops: the photo is
    not forwarded, nothing is stored and the sender gets no acknowledgement. *)
Theorem on_photo_persistence_failure :
  hd Success (faults w) <> Success ->
  let w' := exec (SupabaseBot.on_photo ctx) w in
  trace w' =
    (trace w
     ++ [(ReceiptsInsert (SupabaseBot.new_receipt ctx p (now w)),
          hd Success (faults w));
         (ConsoleError "Error saving receipt to Supabase:", Success);
         (Reply SupabaseBot.receiptError, hd Success (tl (faults w)))])%list /\
  receipts w' = receipts w /\
  connectedGroupId w' = connectedGroupId w /\
  forwards (trace w') = forwards (trace w) /\
  effects (trace w') = effects (trace w) /\
  replies (trace w') = (replies (trace w) ++ [SupabaseBot.receiptError])%list.
Proof.
  intros Hf. cbv zeta.
  destruct (on_photo_connected ctx w p connected largest) as (Hg & _ & H).
  assert (H' : receipts (exec (SupabaseBot.on_photo ctx) w) = receipts w /\
               trace (exec (SupabaseBot.on_photo ctx) w) =
               (trace w
                ++ [(ReceiptsInsert (SupabaseBot.new_receipt ctx p (now w)),
                     hd Success (faults w));
                    (ConsoleError "Error saving receipt to Supabase:", Success);
                    (Reply SupabaseBot.receiptError,
                     hd Success (tl (faults w)))])%list).
  { destruct (hd Success (faults w)); [contradiction Hf; reflexivity| |];
      destruct (hd Success (tl (faults w)));
      destruct (hd Success (tl (tl (faults w)))); exact H. }
  destruct H' as [Hr Ht]. rewrite Ht.
  rewrite forwards_app, effects_app, replies_app.
  repeat split; try assumption.
  - cbn. apply app_nil_r.
  - destruct (hd Success (faults w)), (hd Success (tl (faults w)));
      cbn; try apply app_nil_r; contradiction Hf; reflexivity.
Qed.

(** C10. In [src/bot.js], when the insertion of the receipt succeeds and the
    forwarding to the group fails, the stored receipt stays, the handler only
    logs the error, and no message at all goes to the sender: neither the
    acknowledgement nor an error message. *)
Theorem on_photo_forward_failure :
  hd Success (faults w) = Success ->
  hd Success (tl (faults w)) <> Success ->
  let r := SupabaseBot.new_receipt ctx p (now w) in
  let w' := exec (SupabaseBot.on_photo ctx) w in
  receipts w' = (receipts w ++ [r])%list /\
  trace w' =
    (trace w
     ++ [(ReceiptsInsert r, Success);
         (SendPhoto (connectedGroupId w) p (SupabaseBot.botCaption ctx (now w))
                    "MarkdownV2",
          hd Success (tl (faults w)));
         (ConsoleError "Error forwarding photo to group:", Success)])%list /\
  replies (trace w') = replies (trace w).
Proof.
  intros H1 H2. cbv zeta.
  destruct (on_photo_connected ctx w p connected largest) as (_ & _ & H).
  cbv zeta in H. rewrite H1 in H.
  assert (H' : receipts (exec (SupabaseBot.on_photo ctx) w)
               = (receipts w ++ [SupabaseBot.new_receipt ctx p (now w)])%list /\
               trace (exec (SupabaseBot.on_photo ctx) w) =
               (trace w
                ++ [(ReceiptsInsert (SupabaseBot.new_receipt ctx p (now w)), Success);
                    (SendPhoto (connectedGroupId w) p
                               (SupabaseBot.botCaption ctx (now w)) "MarkdownV2",
                     hd Success (tl (faults w)));
                    (ConsoleError "Error forwarding photo to group:", Success)])%list).
  { destruct (hd Success (tl (faults w))); [contradiction H2; reflexivity| |];
      exact H. }
  destruct H' as [Hr Ht]. rewrite Ht, replies_app.
  repeat split; try assumption. cbn. apply app_nil_r.
Qed.

(** C8, as the code has it. In [src/bot.js], on a photo event with the bot
    connected, the effects that take place are, in this order, an initial
    part of: the receipt is stored, the photo is forwarded, the sender is
    acknowledged; all three take place when the three calls succeed. In the
    file variants nothing is stored, and the sender is acknowledged before
    the photo is forwarded. *)
Theorem on_photo_effects_in_order :
  (exists tr,
     trace (exec (SupabaseBot.on_photo ctx) w) = (trace w ++ tr)%list /\
     (effects tr = [] \/ effects tr = [Persisted] \/
      effects tr = [Persisted; Forwarded] \/
      effects tr = [Persisted; Forwarded; Acknowledged]) /\
     (hd Success (faults w) = Success ->
      hd Success (tl (faults w)) = Success ->
      hd Success (tl (tl (faults w))) = Success ->
      effects tr = [Persisted; Forwarded; Acknowledged])) /\
  (forall escaped,
   exists tr,
     trace (exec (FileBot.on_photo escaped ctx) w) = (trace w ++ tr)%list /\
     receipts (exec (FileBot.on_photo escaped ctx) w) = receipts w /\
     (effects tr = [] \/ effects tr = [Acknowledged] \/
      effects tr = [Acknowledged; Forwarded]) /\
     (hd Success (faults w) = Success ->
      hd Success (tl (faults w)) = Success ->
      effects tr = [Acknowledged; Forwarded])).
Proof.
  split.
  - destruct (on_photo_connected ctx w p connected largest) as (_ & _ & H).
    cbv zeta in H.
    destruct (hd Success (faults w)), (hd Success (tl (faults w))),
      (hd Success (tl (tl (faults w))));
      destruct H as [_ ->]; eexists; (split; [reflexivity|]);
      (split; [cbn; tauto|]); intros; try discriminate; reflexivity.
  - intros escaped.
    destruct (file_on_photo_connected escaped ctx w p connected largest)
      as (_ & _ & Hr & H).
    cbv zeta in H.
    destruct (hd Success (faults w)), (hd Success (tl (faults w)));
      rewrite H; eexists; (split; [reflexivity|]); (split; [exact Hr|]);
      (split; [cbn; tauto|]); intros; try discriminate; reflexivity.
Qed.

End ConnectedPhoto.

Lemma on_photo_persistence_failure_witness :
  let ctx := Sample.photo_of Sample.alice in
  let w := Sample.connected [ErrorResult] in
  let w' := exec (SupabaseBot.on_photo ctx) w in
  trace w' =
    [(ReceiptsInsert (SupabaseBot.new_receipt ctx "big" Sample.jan5_10h), ErrorResult);
     (ConsoleError "Error saving receipt to Supabase:", Success);
     (Reply SupabaseBot.receiptError, Success)] /\
  receipts w' = [] /\
  connectedGroupId w' = JStr "-100123" /\
  forwards (trace w') = [] /\
  effects (trace w') = [] /\
  replies (trace w') = [SupabaseBot.receiptError].
Proof.
  apply (on_photo_persistence_failure (Sample.photo_of Sample.alice)
           (Sample.connected [ErrorResult]) "big").
  - reflexivity.
  - reflexivity.
  - cbn. discriminate.
Defined.

Lemma on_photo_forward_failure_witness :
  let ctx := Sample.photo_of Sample.alice in
  let w := Sample.connected [Success; Rejects] in
  let r := SupabaseBot.new_receipt ctx "big" Sample.jan5_10h in
  let w' := exec (SupabaseBot.on_photo ctx) w in
  receipts w' = [r] /\
  trace w' =
    [(ReceiptsInsert r, Success);
     (SendPhoto (JStr "-100123") "big" (SupabaseBot.botCaption ctx Sample.jan5_10h)
                "MarkdownV2", Rejects);
     (ConsoleError "Error forwarding photo to group:", Success)] /\
  replies (trace w') = [].
Proof.
  apply (on_photo_forward_failure (Sample.photo_of Sample.alice)
           (Sample.connected [Success; Rejects]) "big").
  - reflexivity.
  - reflexivity.
  - reflexivity.
  - cbn. discriminate.
Defined.

Lemma on_photo_effects_in_order_witness :
  let ctx := Sample.photo_of Sample.alice in
  let w := Sample.connected [] in
  (exists tr,
     trace (exec (SupabaseBot.on_photo ctx) w) = (trace w ++ tr)%list /\
     (effects tr = [] \/ effects tr = [Persisted] \/
      effects tr = [Persisted; Forwarded] \/
      effects tr = [Persisted; Forwarded; Acknowledged]) /\
     (hd Success (faults w) = Success ->
      hd Success (tl (faults w)) = Success ->
      hd Success (tl (tl (faults w))) = Success ->
      effects tr = [Persisted; Forwarded; Acknowledged])) /\
  (forall escaped,
   exists tr,
     trace (exec (FileBot.on_photo escaped ctx) w) = (trace w ++ tr)%list /\
     receipts (exec (FileBot.on_photo escaped ctx) w) = receipts w /\
     (effects tr = [] \/ effects tr = [Acknowledged] \/
      effects tr = [Acknowledged; Forwarded]) /\
     (hd Success (faults w) = Success ->
      hd Success (tl (faults w)) = Success ->
      effects tr = [Acknowledged; Forwarded])).
Proof.
  apply (on_photo_effects_in_order (Sample.photo_of Sample.alice)
           (Sample.connected []) "big"); reflexivity.
Defined.

(** C8, as the specification has it, fails on the file variants: on a photo
    event with the bot connected and every call succeeding, [part_001] stores
    nothing, and acknowledges the sender before it forwards the photo. *)
Lemma file_on_photo_acknowledges_first :
  let ctx := Sample.photo_of Sample.alice in
  let w' := exec (FileBot.on_photo true ctx) (Sample.connected []) in
  effects (trace w') = [Acknowledged; Forwarded] /\
  effects (trace w') <> [Persisted; Forwarded; Acknowledged] /\
  receipts w' = [] /\
  effects (trace (exec (FileBot.on_photo false ctx) (Sample.connected [])))
  = [Acknowledged; Forwarded].
Proof.
  cbv zeta. repeat split; try reflexivity. vm_compute. discriminate.
Qed.

(** ** Handlers that leave the state alone *)

Lemma frame_refl w : frame w w.
Proof. repeat split. Qed.

Lemma frame_trans w1 w2 w3 : frame w1 w2 -> frame w2 w3 -> frame w1 w3.
Proof.
  intros (A1 & A2 & A3 & A4 & A5) (B1 & B2 & B3 & B4 & B5).
  repeat split; congruence.
Qed.

Lemma framed_ret {A} (a : A) : framed (ret a).
Proof. intros w. apply frame_refl. Qed.

Lemma framed_throw {A} (e : exn) : framed (@throw A e).
Proof. intros w. apply frame_refl. Qed.

Lemma framed_gets {A} (f : World -> A) : framed (gets f).
Proof. intros w. apply frame_refl. Qed.

Lemma framed_bind {A B} (m : M A) (k : A -> M B) :
  framed m -> (forall a, framed (k a)) -> framed (bind m k).
Proof.
  intros Hm Hk w. unfold bind. specialize (Hm w).
  destruct (m w) as [[a|e] w1]; cbn [snd] in *; [|exact Hm].
  apply (frame_trans _ _ _ Hm). apply Hk.
Qed.

Lemma framed_try_catch {A} (m : M A) (h : exn -> M A) :
  framed m -> (forall e, framed (h e)) -> framed (try_catch m h).
Proof.
  intros Hm Hh w. unfold try_catch. specialize (Hm w).
  destruct (m w) as [[a|e] w1]; cbn [snd] in *; [exact Hm|].
  apply (frame_trans _ _ _ Hm). apply Hh.
Qed.

Lemma framed_record c o : no_forward c -> framed (record c o).
Proof.
  intros Hc [g st rs t fs tr]. unfold record, modify, frame.
  cbn [snd with_trace connectedGroupId settings receipts now faults trace].
  repeat split. rewrite forwards_app.
  destruct c; try contradiction Hc; cbn; apply app_nil_r.
Qed.

Lemma framed_next_outcome : framed next_outcome.
Proof. intros [g st rs t fs tr]. repeat split. Qed.

Lemma framed_console_error msg : framed (console_error msg).
Proof. apply framed_record. exact I. Qed.

Lemma framed_external c : no_forward c -> framed (external c).
Proof.
  intros Hc. unfold external.
  apply framed_bind; [apply framed_next_outcome|]. intros o.
  apply framed_bind; [apply framed_record; exact Hc|]. intros _.
  destruct o; [apply framed_ret|apply framed_throw|apply framed_throw].
Qed.

Lemma framed_store_call {A} c (run : World -> option A * World) :
  no_forward c -> (forall w, snd (run w) = w) -> framed (store_call c run).
Proof.
  intros Hc Hrun. unfold store_call.
  apply framed_bind; [apply framed_next_outcome|]. intros o.
  apply framed_bind; [apply framed_record; exact Hc|]. intros _.
  destruct o; [|apply framed_ret|apply framed_throw].
  intros w. specialize (Hrun w). destruct (run w) as [a w1].
  cbn [snd] in *. subst w1. apply frame_refl.
Qed.

Lemma framed_forEach {A} (l : list A) (body : A -> M unit) :
  (forall x, framed (body x)) -> framed (forEach l body).
Proof.
  intros Hb. induction l as [|x l IH]; cbn [forEach].
  - apply framed_ret.
  - apply framed_bind; [apply Hb|]. intros _. exact IH.
Qed.

Lemma framed_isOwner OWNER_ID ctx (next : M unit) :
  framed next -> framed (SupabaseBot.isOwner OWNER_ID ctx next).
Proof.
  intros H. unfold SupabaseBot.isOwner.
  destruct (User.id (from ctx) =? OWNER_ID); [exact H|apply framed_ret].
Qed.

Lemma framed_help OWNER_ID ctx : framed (SupabaseBot.help OWNER_ID ctx).
Proof.
  apply framed_isOwner. apply framed_external. exact I.
Qed.

Lemma framed_start ctx : framed (SupabaseBot.start ctx).
Proof. apply framed_external. exact I. Qed.

Lemma framed_receipt OWNER_ID ctx : framed (SupabaseBot.receipt OWNER_ID ctx).
Proof.
  apply framed_isOwner. apply framed_bind.
  - apply framed_try_catch.
    + apply framed_bind.
      * apply framed_store_call; [exact I|reflexivity].
      * intros [[|t data]|]; [apply framed_ret| |apply framed_throw].
        destruct (SupabaseBot.uniqueDates (t :: data)); [apply framed_ret|].
        apply framed_bind; [apply framed_external; exact I|].
        intros _. apply framed_ret.
    + intros e. apply framed_bind; [apply framed_console_error|].
      intros _. apply framed_bind; [apply framed_external; exact I|].
      intros _. apply framed_ret.
  - intros [text|]; [apply framed_external; exact I|apply framed_ret].
Qed.

Lemma framed_receipt_date OWNER_ID ctx :
  framed (SupabaseBot.receipt_date OWNER_ID ctx).
Proof.
  apply framed_isOwner. cbv zeta.
  apply framed_bind; [apply framed_external; exact I|]. intros _.
  apply framed_bind.
  - apply framed_try_catch.
    + apply framed_bind.
      * apply framed_store_call; [exact I|reflexivity].
      * intros [[|r data]|]; [apply framed_ret| |apply framed_throw].
        apply framed_bind; [apply framed_external; exact I|]. intros _.
        apply framed_bind; [|intros _; apply framed_ret].
        apply framed_forEach. intros x. apply framed_external. exact I.
    + intros e. apply framed_bind; [apply framed_console_error|].
      intros _. apply framed_bind; [apply framed_external; exact I|].
      intros _. apply framed_ret.
  - intros [text|]; [apply framed_external; exact I|apply framed_ret].
Qed.

(** ** Connected and not connected *)

(** With no group connected the photo handler of [src/bot.js] only answers
    that the bot is not connected. *)
Lemma on_photo_not_connected ctx w :
  truthy (connectedGroupId w) = false ->
  exec (SupabaseBot.on_photo ctx) w =
  mkWorld (connectedGroupId w) (settings w) (receipts w) (now w) (tl (faults w))
          (trace w ++ [(Reply SupabaseBot.notConnected, hd Success (faults w))]).
Proof.
  destruct w as [g st rs t fs tr]. cbn [connectedGroupId]. intros Hc.
  unfold SupabaseBot.on_photo. run_handler. rewrite Hc. run_handler.
  destruct fs as [|[] fs]; reflexivity.
Qed.

Lemma disconnect_keeps_disconnected OWNER_ID ctx w :
  connectedGroupId w = JNull ->
  let w' := exec (SupabaseBot.disconnect OWNER_ID ctx) w in
  connectedGroupId w' = JNull /\
  receipts w' = receipts w /\
  forwards (trace w') = forwards (trace w).
Proof.
  destruct w as [g st rs t fs tr]. cbn [connectedGroupId]. intros ->.
  unfold SupabaseBot.disconnect, SupabaseBot.isOwner, SupabaseBot.saveConnection.
  destruct (User.id (from ctx) =? OWNER_ID); [|repeat split].
  destruct fs as [|[] [|[] fs]]; run_handler; tidy_trace;
    rewrite forwards_app; cbn; rewrite app_nil_r; repeat split.
Qed.

Lemma connectgp_without_group OWNER_ID ctx w :
  saves_group OWNER_ID (Connectgp ctx) = false ->
  frame w (exec (SupabaseBot.connectgp OWNER_ID ctx) w).
Proof.
  cbn [saves_group]. intros H.
  unfold SupabaseBot.connectgp, SupabaseBot.isOwner, exec.
  destruct (User.id (from ctx) =? OWNER_ID); [|apply frame_refl].
  cbn [andb] in H. cbv zeta. rewrite H. cbn [negb].
  apply framed_external. exact I.
Qed.

(** With no group connected, an update other than a [/connectgp] of the
    owner that names a group leaves the bot not connected, stores nothing
    and forwards nothing. *)
Lemma handle_keeps_disconnected OWNER_ID u w :
  connectedGroupId w = JNull ->
  saves_group OWNER_ID u = false ->
  let w' := exec (SupabaseDispatch.handle OWNER_ID u) w in
  connectedGroupId w' = JNull /\
  receipts w' = receipts w /\
  forwards (trace w') = forwards (trace w).
Proof.
  intros Hc Hs. cbv zeta.
  assert (Hframe : forall w', frame w w' ->
            connectedGroupId w' = JNull /\ receipts w' = receipts w /\
            forwards (trace w') = forwards (trace w)).
  { intros w' (A1 & _ & A3 & _ & A5). rewrite A1. auto. }
  destruct u as [ctx|ctx|ctx|ctx|ctx|ctx|ctx]; cbn [SupabaseDispatch.handle].
  - apply Hframe, connectgp_without_group, Hs.
  - apply disconnect_keeps_disconnected, Hc.
  - apply Hframe, framed_help.
  - apply Hframe, framed_receipt.
  - apply Hframe, framed_receipt_date.
  - apply Hframe, framed_start.
  - rewrite on_photo_not_connected by (rewrite Hc; reflexivity).
    cbn [connectedGroupId receipts trace]. rewrite forwards_app. cbn.
    rewrite app_nil_r. auto.
Qed.

Lemma run_keeps_disconnected OWNER_ID us :
  forall w,
    connectedGroupId w = JNull ->
    Forall (fun e => saves_group OWNER_ID (snd e) = false) us ->
    let w' := run (SupabaseDispatch.handle OWNER_ID) us w in
    connectedGroupId w' = JNull /\
    receipts w' = receipts w /\
    forwards (trace w') = forwards (trace w).
Proof.
  induction us as [|[t u] us IH]; intros w Hc Hus; cbn [run fold_left].
  - auto.
  - inversion Hus as [|e l Hu Hus']; subst. cbn [fst snd] in *.
    destruct (handle_keeps_disconnected OWNER_ID u (with_now t w))
      as (A1 & A2 & A3); [destruct w; exact Hc|exact Hu|].
    destruct (IH _ A1 Hus') as (B1 & B2 & B3).
    unfold run in B1, B2, B3. rewrite B1, B2, B3, A2, A3.
    destruct w; auto.
Qed.

(** C6, as the code has it. In [src/bot.js], after a [/disconnect] of the
    owner whose write to the store succeeds, the bot is not connected, and it
    stays so through every update that is not a [/connectgp] of the owner
    naming a group: meanwhile no photo is forwarded and no receipt is stored,
    and a photo event is answered with the not-connected reply only. *)
Theorem disconnect_disables_forwarding
    (OWNER_ID : Z) (ctx : Ctx) (w : World) (us : list (Z * update))
    (t : Z) (ctx' : Ctx) :
  User.id (from ctx) = OWNER_ID ->
  hd Success (faults w) = Success ->
  Forall (fun e => saves_group OWNER_ID (snd e) = false) us ->
  let w0 := exec (SupabaseBot.disconnect OWNER_ID ctx) w in
  let w1 := run (SupabaseDispatch.handle OWNER_ID) us w0 in
  let w2 := exec (SupabaseBot.on_photo ctx') (with_now t w1) in
  connectedGroupId w0 = JNull /\
  connectedGroupId w1 = JNull /\
  forwards (trace w1) = forwards (trace w) /\
  receipts w1 = receipts w /\
  trace w2 = (trace w1 ++ [(Reply SupabaseBot.notConnected,
                            hd Success (faults w1))])%list /\
  receipts w2 = receipts w1 /\
  connectedGroupId w2 = JNull.
Proof.
  intros Ho Hf Hus. cbv zeta.
  assert (H0 : connectedGroupId (exec (SupabaseBot.disconnect OWNER_ID ctx) w) = JNull
               /\ receipts (exec (SupabaseBot.disconnect OWNER_ID ctx) w) = receipts w
               /\ forwards (trace (exec (SupabaseBot.disconnect OWNER_ID ctx) w))
                  = forwards (trace w)).
  { destruct w as [g st rs t0 fs tr]. cbn [faults] in Hf.
    unfold SupabaseBot.disconnect, SupabaseBot.isOwner, SupabaseBot.saveConnection.
    rewrite Ho, Z.eqb_refl.
    destruct fs as [|o [|[] fs]]; cbn [hd] in Hf; try subst o;
      run_handler; tidy_trace; rewrite forwards_app; cbn; rewrite app_nil_r;
      repeat split. }
  destruct H0 as (A1 & A2 & A3).
  destruct (run_keeps_disconnected OWNER_ID us _ A1 Hus) as (B1 & B2 & B3).
  rewrite on_photo_not_connected
    by (destruct (run _ us _); cbn in *; rewrite B1; reflexivity).
  cbn [connectedGroupId receipts trace].
  destruct (run (SupabaseDispatch.handle OWNER_ID) us
              (exec (SupabaseBot.disconnect OWNER_ID ctx) w)) as [g1 s1 r1 n1 f1 t1].
  cbn in *. repeat split; congruence.
Qed.

Lemma disconnect_disables_forwarding_witness :
  let w := Sample.connected [] in
  let us := [(Sample.jan5_10h, Photo (Sample.photo_of Sample.alice));
             (Sample.jan5_10h, Connectgp (Sample.command_of Sample.alice "/connectgp -1"));
             (Sample.jan5_10h, ReceiptCommand (Sample.command_of Sample.boss "/receipt"))] in
  let w0 := exec (SupabaseBot.disconnect Sample.owner
                    (Sample.command_of Sample.boss "/disconnect")) w in
  let w1 := run (SupabaseDispatch.handle Sample.owner) us w0 in
  let w2 := exec (SupabaseBot.on_photo (Sample.photo_of Sample.alice))
                 (with_now Sample.jan5_10h w1) in
  connectedGroupId w0 = JNull /\
  connectedGroupId w1 = JNull /\
  forwards (trace w1) = forwards (trace w) /\
  receipts w1 = receipts w /\
  trace w2 = (trace w1 ++ [(Reply SupabaseBot.notConnected,
                            hd Success (faults w1))])%list /\
  receipts w2 = receipts w1 /\
  connectedGroupId w2 = JNull.
Proof.
  apply (disconnect_disables_forwarding Sample.owner
           (Sample.command_of Sample.boss "/disconnect") (Sample.connected [])
           [(Sample.jan5_10h, Photo (Sample.photo_of Sample.alice));
            (Sample.jan5_10h, Connectgp (Sample.command_of Sample.alice "/connectgp -1"));
            (Sample.jan5_10h, ReceiptCommand (Sample.command_of Sample.boss "/receipt"))]
           Sample.jan5_10h (Sample.photo_of Sample.alice)).
  - reflexivity.
  - reflexivity.
  - repeat constructor.
Defined.

(** C6, as the specification has it, fails in [src/bot.js] when the write of
    the [/disconnect] fails: the owner is told so, the bot stays connected,
    and the next photo is stored, forwarded and acknowledged. *)
Lemma disconnect_write_failure_keeps_forwarding :
  let w := Sample.connected [ErrorResult] in
  let w0 := exec (SupabaseDispatch.handle Sample.owner
                    (Disconnect (Sample.command_of Sample.boss "/disconnect"))) w in
  let w2 := exec (SupabaseDispatch.handle Sample.owner
                    (Photo (Sample.photo_of Sample.alice))) w0 in
  replies (trace w0) = ["❌ Failed to update connection in DB."] /\
  connectedGroupId w0 = JStr "-100123" /\
  forwards (trace w2) = [(JStr "-100123", "big")] /\
  effects (trace w2) = [Persisted; Forwarded; Acknowledged] /\
  replies (trace w2) = ["❌ Failed to update connection in DB.";
                        SupabaseBot.acknowledgement].
Proof. cbv zeta. repeat split; reflexivity. Qed.

(** ** Keys and dates *)

Lemma all_below_spec n f :
  all_below n f = true -> forall z, 0 <= z < Z.of_nat n -> f z = true.
Proof.
  induction n as [|n IH]; intros H z Hz; [lia|].
  cbn [all_below] in H. apply andb_true_iff in H as [H1 H2].
  destruct (Z.eq_dec z (Z.of_nat n)) as [->|Hne]; [exact H1|].
  apply IH; [exact H2|lia].
Qed.

Lemma zeroFill_two_digits n :
  0 <= n <= 99 ->
  exists a b,
    zeroFill n 2 = String a (String b EmptyString) /\ two_digits a b = Some n.
Proof.
  intros H.
  assert (Hall : all_below 100 two_digits_ok = true) by (vm_compute; reflexivity).
  pose proof (all_below_spec 100 two_digits_ok Hall n ltac:(lia)) as Hn.
  unfold two_digits_ok in Hn.
  destruct (zeroFill n 2) as [|a [|b [|c r]]]; cbn in Hn; try discriminate Hn.
  exists a, b. split; [reflexivity|].
  destruct (two_digits a b) as [v|]; [|discriminate Hn].
  apply Z.eqb_eq in Hn. congruence.
Qed.

Lemma digit_inj a b x : digit a = Some x -> digit b = Some x -> a = b.
Proof.
  unfold digit. intros Ha Hb.
  destruct ((48 <=? Z.of_nat (nat_of_ascii a)) && (Z.of_nat (nat_of_ascii a) <=? 57));
    [|discriminate Ha].
  destruct ((48 <=? Z.of_nat (nat_of_ascii b)) && (Z.of_nat (nat_of_ascii b) <=? 57));
    [|discriminate Hb].
  assert (E : nat_of_ascii a = nat_of_ascii b).
  { assert (Some (Z.of_nat (nat_of_ascii a) - 48) = Some (Z.of_nat (nat_of_ascii b) - 48))
      by congruence.
    assert (Z.of_nat (nat_of_ascii a) - 48 = Z.of_nat (nat_of_ascii b) - 48)
      by congruence.
    lia. }
  rewrite <- (ascii_nat_embedding a), <- (ascii_nat_embedding b), E. reflexivity.
Qed.

Lemma digit_range a x : digit a = Some x -> 0 <= x <= 9.
Proof.
  unfold digit.
  destruct ((48 <=? Z.of_nat (nat_of_ascii a)) && (Z.of_nat (nat_of_ascii a) <=? 57))
    eqn:E; [|discriminate].
  intros H. assert (x = Z.of_nat (nat_of_ascii a) - 48) by congruence.
  apply andb_true_iff in E as [E1 E2]. apply Z.leb_le in E1, E2. lia.
Qed.

Lemma two_digits_zeroFill a b n :
  two_digits a b = Some n ->
  0 <= n <= 99 /\ zeroFill n 2 = String a (String b EmptyString).
Proof.
  intros H.
  assert (Hd : exists x y, digit a = Some x /\ digit b = Some y /\ n = 10 * x + y).
  { unfold two_digits in H.
    destruct (digit a) as [x|]; [|discriminate H].
    destruct (digit b) as [y|]; [|discriminate H].
    exists x, y. repeat split. congruence. }
  destruct Hd as (x & y & Hx & Hy & ->).
  pose proof (digit_range _ _ Hx). pose proof (digit_range _ _ Hy).
  split; [lia|].
  destruct (zeroFill_two_digits (10 * x + y) ltac:(lia)) as (a' & b' & E & Hab).
  rewrite E.
  assert (Hd' : exists x' y', digit a' = Some x' /\ digit b' = Some y'
                              /\ 10 * x + y = 10 * x' + y').
  { unfold two_digits in Hab.
    destruct (digit a') as [x'|]; [|discriminate Hab].
    destruct (digit b') as [y'|]; [|discriminate Hab].
    exists x', y'. repeat split. congruence. }
  destruct Hd' as (x' & y' & Hx' & Hy' & Hxy).
  pose proof (digit_range _ _ Hx'). pose proof (digit_range _ _ Hy').
  assert (x' = x) by lia. assert (y' = y) by lia. subst x' y'.
  rewrite (digit_inj _ _ _ Hx Hx'), (digit_inj _ _ _ Hy Hy'). reflexivity.
Qed.

Lemma format_DDMMYY_key t : format_DDMMYY t = key_of_date (localDate t).
Proof. reflexivity. Qed.

Lemma daysInMonth_le_31 y m : daysInMonth y m <= 31.
Proof.
  destruct (daysInMonth_cases y m) as [[_ ->]|[[_ ->]|(_&_&_&_&_&->)]];
    try lia. destruct (isLeapYear y); lia.
Qed.

(** The key of a date of the years 1969 to 2068 reads back as that date. *)
Lemma parse_key_of_date ymd :
  valid_date ymd ->
  1969 <= fst (fst ymd) <= 2068 ->
  parse_DDMMYY (key_of_date ymd) = Some ymd.
Proof.
  destruct ymd as [[y m] d]. cbn [fst valid_date]. intros [Hm Hd] Hy.
  pose proof (daysInMonth_le_31 y m) as H31.
  assert (Hyy : 0 <= Z.rem y 100 <= 99 /\ parseTwoDigitYear (Z.rem y 100) = y).
  { rewrite Z.rem_mod_nonneg by lia. unfold parseTwoDigitYear.
    destruct (Z.ltb_spec 68 (y mod 100)); Z.div_mod_to_equations; lia. }
  destruct Hyy as [Hyy Hpy].
  destruct (zeroFill_two_digits d ltac:(lia)) as (d1 & d2 & Ed & Hdd).
  destruct (zeroFill_two_digits m ltac:(lia)) as (m1 & m2 & Em & Hmm).
  destruct (zeroFill_two_digits (Z.rem y 100) Hyy) as (y1 & y2 & Ey & Hy2).
  unfold key_of_date, parse_DDMMYY. rewrite Ed, Em, Ey.
  cbn [String.append list_ascii_of_string].
  change (Ascii.eqb "/" "/") with true. cbn [andb].
  rewrite Hdd, Hmm, Hy2, Hpy.
  replace ((1 <=? m) && (m <=? 12) && (1 <=? d) && (d <=? daysInMonth y m))
    with true; [reflexivity|].
  symmetry. rewrite !andb_true_iff, !Z.leb_le. lia.
Qed.

(** A key that parses is the key of the date it denotes. *)
Lemma key_of_parse s ymd : parse_DDMMYY s = Some ymd -> key_of_date ymd = s.
Proof.
  unfold parse_DDMMYY. intros H.
  rewrite <- (string_of_list_ascii_of_string s).
  destruct (list_ascii_of_string s)
    as [|d1 [|d2 [|s1 [|m1 [|m2 [|s2 [|y1 [|y2 [|? ?]]]]]]]]];
    try discriminate H.
  destruct (Ascii.eqb_spec s1 "/") as [->|]; [|discriminate H].
  destruct (Ascii.eqb_spec s2 "/") as [->|]; [|discriminate H].
  cbn [andb] in H.
  destruct (two_digits d1 d2) as [d|] eqn:Ed; [|discriminate H].
  destruct (two_digits m1 m2) as [m|] eqn:Em; [|discriminate H].
  destruct (two_digits y1 y2) as [yy|] eqn:Ey; [|discriminate H].
  destruct ((1 <=? m) && (m <=? 12) && (1 <=? d)
            && (d <=? daysInMonth (parseTwoDigitYear yy) m)); [|discriminate H].
  assert (E : ymd = (parseTwoDigitYear yy, m, d)) by congruence. subst ymd.
  apply two_digits_zeroFill in Ed as [_ Ed], Em as [_ Em], Ey as [Hyy Ey].
  unfold key_of_date.
  replace (Z.rem (parseTwoDigitYear yy) 100) with yy.
  - rewrite Ed, Em, Ey. reflexivity.
  - unfold parseTwoDigitYear.
    destruct (Z.ltb_spec 68 yy); rewrite Z.rem_mod_nonneg by lia;
      Z.div_mod_to_equations; lia.
Qed.

(** The receipts of a bucket are the receipts of the day its key reads as,
    for the receipts of the years 1969 to 2068. *)
Lemma bucket_iff_day t s ymd :
  parse_DDMMYY s = Some ymd ->
  1969 <= fst (fst (localDate t)) <= 2068 ->
  format_DDMMYY t = s <-> localDate t = ymd.
Proof.
  intros Hp Hy. rewrite format_DDMMYY_key. split.
  - intros E.
    pose proof (civil_from_days_valid (localDay t)) as Hv.
    fold (localDate t) in Hv.
    assert (Hv' : valid_date (localDate t)).
    { destruct (localDate t) as [[y m] d]. exact Hv. }
    pose proof (parse_key_of_date _ Hv' Hy) as Hk.
    rewrite E in Hk. congruence.
  - intros ->. apply key_of_parse. exact Hp.
Qed.

(** ** The date listing and the date detail *)

Lemma external_ok c w :
  hd Success (faults w) = Success ->
  external c w =
  (inl tt,
   mkWorld (connectedGroupId w) (settings w) (receipts w) (now w)
           (tl (faults w)) (trace w ++ [(c, Success)])).
Proof.
  destruct w as [g st rs t fs tr]. cbn [faults]. intros H.
  destruct fs as [|o fs]; cbn [hd] in H; try subst o; reflexivity.
Qed.

Lemma store_call_ok {A} c (run : World -> option A * World) w :
  hd Success (faults w) = Success ->
  store_call c run w =
  (let (a, w') :=
     run (mkWorld (connectedGroupId w) (settings w) (receipts w) (now w)
                  (tl (faults w)) (trace w ++ [(c, Success)])) in
   (inl a, w')).
Proof.
  destruct w as [g st rs t fs tr]. cbn [faults]. intros H.
  destruct fs as [|o fs]; cbn [hd] in H; try subst o; reflexivity.
Qed.

Lemma select_range_spec s e rows :
  exists data,
    select_range (Some s) (Some e) rows = Some data /\
    Permutation data
      (filter (fun r => (s <=? received_at r) && (received_at r <=? e)) rows) /\
    Sorted by_time data /\
    forall r, In r data <-> In r rows /\ s <= received_at r <= e.
Proof.
  eexists. split; [reflexivity|]. split; [|split].
  - symmetry. apply order_by_received_at_perm.
  - apply order_by_received_at_sorted.
  - intros r. split.
    + intros H.
      apply (Permutation_in _ (Permutation_sym (order_by_received_at_perm _))) in H.
      apply filter_In in H as [H1 H2]. apply andb_true_iff in H2 as [H2 H3].
      apply Z.leb_le in H2, H3. auto.
    + intros [H1 [H2 H3]].
      apply (Permutation_in _ (order_by_received_at_perm _)).
      apply filter_In. split; [exact H1|].
      apply andb_true_iff. split; apply Z.leb_le; assumption.
Qed.

(** The query of the date detail of [src/bot.js], for a key that is that of
    a date of the calendar: between the start and the end of that day in the
    zone, both included, it gets exactly the stored receipts whose instant
    falls on that day there (for the receipts of the years 1969 to 2068:
    those of the bucket the key stands for), in ascending order of
    [received_at]. *)
Lemma receipt_date_fetches_the_day (dateStr : string) (rows : list Receipt)
    (ymd : Z * Z * Z) :
  parse_DDMMYY dateStr = Some ymd ->
  exists data,
    SupabaseBot.fetch_day dateStr rows = Some data /\
    (forall r, In r data <->
               In r rows /\ localDate (received_at r) = ymd) /\
    (forall r, In r data <->
               In r rows /\
               startOfDay ymd <= received_at r <= endOfDay ymd) /\
    Permutation data
      (filter (fun r => (startOfDay ymd <=? received_at r)
                        && (received_at r <=? endOfDay ymd)) rows) /\
    Sorted by_time data /\
    (forall r, In r rows ->
               1969 <= fst (fst (localDate (received_at r))) <= 2068 ->
               (In r data <-> format_DDMMYY (received_at r) = dateStr)).
Proof.
  intros Hp.
  destruct (parse_DDMMYY_valid _ _ Hp) as [Hv _].
  destruct (select_range_spec (startOfDay ymd) (endOfDay ymd) rows)
    as (data & Hsel & Hperm & Hsort & Hin).
  exists data. unfold SupabaseBot.fetch_day. rewrite Hp. cbn [option_map].
  assert (Hday : forall r, In r data <->
                   In r rows /\ localDate (received_at r) = ymd).
  { intros r. rewrite Hin. rewrite (localDate_iff_range _ _ Hv). reflexivity. }
  split; [exact Hsel|]. split; [exact Hday|]. split; [exact Hin|].
  split; [exact Hperm|]. split; [exact Hsort|].
  intros r Hr Hy. rewrite Hday, (bucket_iff_day _ _ _ Hp Hy). tauto.
Qed.

(** On the sample store the press on the 5th of January fetches the two
    receipts of that day, the earlier one first, and leaves out the one of
    the 6th. *)
Example receipt_date_sample :
  SupabaseBot.fetch_day "05/01/24" (receipts (Sample.store []))
  = Some [Sample.receipt_at Sample.jan5_10h;
          Sample.receipt_at (Sample.jan5_10h + 3600000)] /\
  map format_DDMMYY (map received_at (receipts (Sample.store [])))
  = ["05/01/24"; "06/01/24"; "05/01/24"].
Proof. split; reflexivity. Qed.

(** The rows of the keyboard hold the buttons in order, three to a row at
    most. *)
Lemma rows_of_3_concat_aux {A} n :
  forall l : list A,
    (List.length l <= 3 * n)%nat ->
    List.concat (map (fun i => firstn 3 (skipn (i * 3)%nat l)) (seq 0 n)) = l.
Proof.
  induction n as [|n IH]; intros l Hl.
  - destruct l; [reflexivity|cbn in Hl; lia].
  - cbn [seq map concat]. rewrite <- seq_shift, map_map.
    change (skipn (0 * 3)%nat l) with l.
    rewrite (map_ext _ (fun i => firstn 3 (skipn (i * 3)%nat (skipn 3 l)))).
    + cbn [List.concat]. rewrite IH; [apply firstn_skipn|].
      rewrite length_skipn. lia.
    + intros i. rewrite skipn_skipn. f_equal. f_equal. lia.
Qed.

Lemma rows_of_3_concat {A} (l : list A) :
  List.concat (SupabaseBot.rows_of_3 l) = l /\
  Forall (fun row => (List.length row <= 3)%nat) (SupabaseBot.rows_of_3 l).
Proof.
  split.
  - apply rows_of_3_concat_aux.
    pose proof (Nat.div_mod_eq (List.length l + 2) 3) as H.
    pose proof (Nat.mod_upper_bound (List.length l + 2) 3). lia.
  - unfold SupabaseBot.rows_of_3. apply Forall_map, Forall_forall.
    intros i _. rewrite length_firstn. lia.
Qed.

(** The date-listing handler, run by the owner on a store that has receipts,
    the reading of the store and the reply succeeding. *)
Lemma receipt_run OWNER_ID ctx w :
  User.id (from ctx) = OWNER_ID ->
  receipts w <> [] ->
  hd Success (faults w) = Success ->
  hd Success (tl (faults w)) = Success ->
  trace (exec (SupabaseBot.receipt OWNER_ID ctx) w) =
    (trace w
     ++ [(ReceiptsSelectDates, Success);
         (ReplyKeyboard "နေ့စွဲအားရွေးချယ်ပါ:"
            (SupabaseBot.rows_of_3
               (map button (SupabaseBot.uniqueDates (map received_at (receipts w))))),
          Success)])%list.
Proof.
  intros Ho Hne Hf1 Hf2.
  unfold SupabaseBot.receipt, SupabaseBot.isOwner, exec.
  rewrite Ho, Z.eqb_refl. unfold try_catch, bind, ret.
  rewrite store_call_ok by exact Hf1.
  cbn [connectedGroupId settings receipts now faults trace].
  destruct (receipts w) as [|r rs]; [contradiction Hne; reflexivity|].
  cbn [map].
  destruct (SupabaseBot.uniqueDates (received_at r :: map received_at rs))
    as [|k ks] eqn:E.
  - exfalso.
    assert (Hk : In (format_DDMMYY (received_at r))
                    (SupabaseBot.uniqueDates (received_at r :: map received_at rs)))
      by (apply new_Set_spec; left; reflexivity).
    rewrite E in Hk. exact Hk.
  - rewrite external_ok by exact Hf2.
    cbn [snd trace]. rewrite <- app_assoc. reflexivity.
Qed.

(** C3. The date listing of [src/bot.js] offers one button per date key, and
    the keys are the instants of the stored receipts rendered as DD/MM/YY in
    the zone, each once: the key of a receipt spells the day, the month and
    the last two digits of the year of the calendar date on which its instant
    falls there. This for receipts stamped since the 3rd of May 1945, the
    zone being at UTC+06:30 from then on. A receipt of 2024-01-05T10:00:00
    in the zone has the key 05/01/24. *)
Theorem date_bucket_keys (OWNER_ID : Z) (ctx : Ctx) (w : World) :
  User.id (from ctx) = OWNER_ID ->
  receipts w <> [] ->
  hd Success (faults w) = Success ->
  hd Success (tl (faults w)) = Success ->
  Forall (fun r => Zone.since_1945 <= received_at r) (receipts w) ->
  let keys := SupabaseBot.uniqueDates (map received_at (receipts w)) in
  (exists keyboard,
     trace (exec (SupabaseBot.receipt OWNER_ID ctx) w) =
       (trace w ++ [(ReceiptsSelectDates, Success);
                    (ReplyKeyboard "နေ့စွဲအားရွေးချယ်ပါ:" keyboard, Success)])%list /\
     List.concat keyboard = map button keys) /\
  NoDup keys /\
  (forall k, In k keys <->
             exists r, In r (receipts w) /\ k = format_DDMMYY (received_at r)) /\
  (forall r, In r (receipts w) ->
     exists y m d,
       localDate (received_at r) = (y, m, d) /\
       valid_date (y, m, d) /\
       startOfDay (y, m, d) <= received_at r <= endOfDay (y, m, d) /\
       format_DDMMYY (received_at r)
       = zeroFill d 2 ++ "/" ++ zeroFill m 2 ++ "/" ++ zeroFill (Z.rem y 100) 2) /\
  format_DDMMYY (startOfDay (2024, 1, 5) + 10 * 3600000) = "05/01/24".
Proof.
  intros Ho Hne Hf1 Hf2 _. cbv zeta.
  destruct (new_Set_spec (map format_DDMMYY (map received_at (receipts w))))
    as [Hnd Hin].
  split; [|split; [exact Hnd|split; [|split; [|reflexivity]]]].
  - eexists. split; [apply receipt_run; assumption|].
    apply rows_of_3_concat.
  - intros k. unfold SupabaseBot.uniqueDates. rewrite Hin, map_map, in_map_iff.
    split; intros [r [H1 H2]]; exists r; auto.
  - intros r _.
    pose proof (civil_from_days_valid (localDay (received_at r))) as Hv.
    unfold format_DDMMYY.
    destruct (localDate (received_at r)) as [[y m] d] eqn:E.
    unfold localDate in E. rewrite E in Hv.
    exists y, m, d. split; [reflexivity|]. split; [exact Hv|].
    split; [|reflexivity].
    apply (localDate_iff_range _ _ Hv). exact E.
Qed.

Lemma date_bucket_keys_witness :
  let ctx := Sample.command_of Sample.boss "/receipt" in
  let w := Sample.store [] in
  let keys := SupabaseBot.uniqueDates (map received_at (receipts w)) in
  keys = ["05/01/24"; "06/01/24"] /\
  (exists keyboard,
     trace (exec (SupabaseBot.receipt Sample.owner ctx) w) =
       (trace w ++ [(ReceiptsSelectDates, Success);
                    (ReplyKeyboard "နေ့စွဲအားရွေးချယ်ပါ:" keyboard, Success)])%list /\
     List.concat keyboard = map button keys) /\
  forall r, In r (receipts w) ->
     exists y m d,
       localDate (received_at r) = (y, m, d) /\
       valid_date (y, m, d) /\
       startOfDay (y, m, d) <= received_at r <= endOfDay (y, m, d) /\
       format_DDMMYY (received_at r)
       = zeroFill d 2 ++ "/" ++ zeroFill m 2 ++ "/" ++ zeroFill (Z.rem y 100) 2.
Proof.
  cbv zeta. split; [reflexivity|].
  pose proof (date_bucket_keys Sample.owner
                (Sample.command_of Sample.boss "/receipt") (Sample.store [])) as H.
  cbv zeta in H.
  destruct H as (H1 & _ & _ & H4 & _).
  - reflexivity.
  - discriminate.
  - reflexivity.
  - reflexivity.
  - repeat constructor; vm_compute; discriminate.
  - split; [exact H1|exact H4].
Defined.

(** * More of the code *)

(** ** Escaping, again *)

Lemma unescape_replace_class cls s :
  cls "\"%char = true ->
  Rendering.unescape (replace_class cls s) = s.
Proof.
  intros Hb. induction s as [|c r IH]; [reflexivity|].
  cbn [replace_class]. destruct (cls c) eqn:E.
  - cbn [Rendering.unescape]. rewrite Ascii.eqb_refl, IH. reflexivity.
  - cbn [Rendering.unescape].
    destruct (Ascii.eqb_spec c "\") as [->|_]; [congruence|].
    rewrite IH. reflexivity.
Qed.

Lemma escapeMarkdown_JStr s :
  SupabaseBot.escapeMarkdown (JStr s)
  = replace_class (in_class SupabaseBot.escape_class) s /\
  FileBot.escapeMarkdown (JStr s)
  = replace_class (in_class FileBot.escape_class) s.
Proof. destruct s; split; reflexivity. Qed.

(** X1. Escaping loses nothing: a reader that takes each backslash with the
    character after it gets back the text that was escaped, with the function
    of [src/bot.js] and with that of [part_001]. *)
Theorem unescape_escapeMarkdown (s : string) :
  Rendering.unescape (SupabaseBot.escapeMarkdown (JStr s)) = s /\
  Rendering.unescape (FileBot.escapeMarkdown (JStr s)) = s.
Proof.
  destruct (escapeMarkdown_JStr s) as [-> ->].
  split; apply unescape_replace_class; reflexivity.
Qed.

Lemma replace_class_length cls s :
  String.length (replace_class cls s)
  = (String.length s + Rendering.count_class cls s)%nat.
Proof.
  induction s as [|c r IH]; [reflexivity|].
  cbn [replace_class Rendering.count_class]. destruct (cls c);
    cbn [String.length]; rewrite IH; lia.
Qed.

Lemma replace_class_none cls s :
  Rendering.count_class cls s = O -> replace_class cls s = s.
Proof.
  induction s as [|c r IH]; [reflexivity|].
  cbn [replace_class Rendering.count_class]. destruct (cls c); [discriminate|].
  intros H. rewrite IH by exact H. reflexivity.
Qed.

(** X2. The escaped text is longer than the text by one character for each
    character of the class, and a text with no character of the class comes
    back as it is. *)
Theorem escapeMarkdown_length (s : string) :
  String.length (SupabaseBot.escapeMarkdown (JStr s))
  = (String.length s
     + Rendering.count_class (in_class SupabaseBot.escape_class) s)%nat /\
  (Rendering.count_class (in_class SupabaseBot.escape_class) s = O ->
   SupabaseBot.escapeMarkdown (JStr s) = s) /\
  String.length (FileBot.escapeMarkdown (JStr s))
  = (String.length s
     + Rendering.count_class (in_class FileBot.escape_class) s)%nat /\
  (Rendering.count_class (in_class FileBot.escape_class) s = O ->
   FileBot.escapeMarkdown (JStr s) = s).
Proof.
  destruct (escapeMarkdown_JStr s) as [-> ->].
  repeat split; try apply replace_class_length; apply replace_class_none.
Qed.

Lemma escapeMarkdown_length_witness :
  String.length (SupabaseBot.escapeMarkdown (JStr "a_b (c)")) = 10%nat /\
  SupabaseBot.escapeMarkdown (JStr "Telegram Premium") = "Telegram Premium" /\
  FileBot.escapeMarkdown (JStr "Telegram Premium") = "Telegram Premium".
Proof.
  destruct (escapeMarkdown_length "a_b (c)") as (H1 & _).
  destruct (escapeMarkdown_length "Telegram Premium") as (_ & H2 & _ & H4).
  split; [exact H1|]. split; [apply H2|apply H4]; reflexivity.
Defined.

Lemma file_class_char c :
  (in_class FileBot.escape_class c = true ->
   in_class "[]" c = false) /\
  (in_class FileBot.escape_class c = false ->
   Ascii.eqb c "\" = false /\ in_class Markup.reserved c = in_class "[]" c).
Proof.
  destruct c as [[] [] [] [] [] [] [] []]; vm_compute; split; intros H;
    first [discriminate H | reflexivity | split; reflexivity].
Qed.

(** X3. The function of [part_001] escapes every reserved character but the
    square brackets: its output has no unescaped reserved character exactly
    when the text has no square bracket. *)
Theorem file_escapeMarkdown_but_brackets (s : string) :
  Markup.well_escaped (FileBot.escapeMarkdown (JStr s)) = true <->
  Rendering.count_class (in_class "[]") s = O.
Proof.
  destruct (escapeMarkdown_JStr s) as [_ ->].
  induction s as [|c r IH]; [split; reflexivity|].
  cbn [replace_class Rendering.count_class].
  destruct (file_class_char c) as [H1 H2].
  destruct (in_class FileBot.escape_class c) eqn:E.
  - cbn [Markup.well_escaped]. rewrite Ascii.eqb_refl, (H1 eq_refl). exact IH.
  - destruct (H2 eq_refl) as [Hb Hr].
    cbn [Markup.well_escaped]. rewrite Hb, Hr.
    destruct (in_class "[]" c); cbn [negb andb].
    + split; intros H; discriminate H.
    + exact IH.
Qed.

(** ** The argument of a command *)

Lemma append_nil_r s : s ++ EmptyString = s.
Proof. induction s as [|c r IH]; [reflexivity|]. cbn. rewrite IH. reflexivity. Qed.

Lemma append_assoc a b c : (a ++ b) ++ c = a ++ (b ++ c).
Proof. induction a as [|x r IH]; [reflexivity|]. cbn. rewrite IH. reflexivity. Qed.

Lemma split_space_aux_nonempty s :
  forall cur, exists h t, split_space_aux cur s = h :: t.
Proof.
  induction s as [|c r IH]; intros cur; cbn [split_space_aux].
  - eauto.
  - destruct (Ascii.eqb c " "); [eauto|apply IH].
Qed.

Lemma join_split_space_aux s :
  forall cur p,
    (forall x, cur x = p ++ x) ->
    join_space (split_space_aux cur s) = p ++ s.
Proof.
  induction s as [|c r IH]; intros cur p Hcur; cbn [split_space_aux].
  - cbn [join_space]. apply Hcur.
  - destruct (Ascii.eqb_spec c " ") as [->|_].
    + pose proof (IH (fun x => x) EmptyString (fun x => eq_refl)) as Hr.
      destruct (split_space_aux_nonempty r (fun x => x)) as (h & t & E).
      rewrite E in *. cbn [join_space] in *. rewrite Hr, Hcur, append_nil_r.
      reflexivity.
    + rewrite (IH _ (p ++ String c EmptyString)).
      * rewrite append_assoc. reflexivity.
      * intros x. rewrite Hcur, append_assoc. reflexivity.
Qed.

Lemma join_tail_split_space s :
  forall cur,
    join_space (slice1 (split_space_aux cur s)) = Rendering.after_first_space s.
Proof.
  induction s as [|c r IH]; intros cur;
    cbn [split_space_aux Rendering.after_first_space].
  - reflexivity.
  - destruct (Ascii.eqb c " ").
    + cbn [slice1 tl].
      apply (join_split_space_aux r (fun x => x) EmptyString). reflexivity.
    + apply IH.
Qed.

Lemma after_first_space_append cmd rest :
  Rendering.count_class (Ascii.eqb " ") cmd = O ->
  Rendering.after_first_space (cmd ++ String " " rest) = rest.
Proof.
  induction cmd as [|c r IH]; cbn [Rendering.count_class String.append
                                   Rendering.after_first_space].
  - reflexivity.
  - rewrite (Ascii.eqb_sym c " "). destruct (Ascii.eqb " " c); [discriminate|].
    exact IH.
Qed.

Lemma after_first_space_none s :
  Rendering.count_class (Ascii.eqb " ") s = O ->
  Rendering.after_first_space s = EmptyString.
Proof.
  induction s as [|c r IH]; cbn [Rendering.count_class Rendering.after_first_space].
  - reflexivity.
  - rewrite (Ascii.eqb_sym c " "). destruct (Ascii.eqb " " c); [discriminate|].
    exact IH.
Qed.

(** X4. The argument of [/connectgp], [text.split(" ").slice(1).join(" ")],
    is the text after the first space, with its own spaces kept; a command
    sent alone has the empty argument. The same in the three programs. *)
Theorem command_args_after_first_space (ctx : Ctx) :
  (forall cmd rest,
     text ctx = cmd ++ String " " rest ->
     Rendering.count_class (Ascii.eqb " ") cmd = O ->
     SupabaseBot.command_args ctx = rest /\
     FileBot.command_args ctx = rest /\
     MemoryBot.command_args ctx = rest) /\
  (Rendering.count_class (Ascii.eqb " ") (text ctx) = O ->
   SupabaseBot.command_args ctx = EmptyString /\
   FileBot.command_args ctx = EmptyString /\
   MemoryBot.command_args ctx = EmptyString).
Proof.
  assert (H : SupabaseBot.command_args ctx = Rendering.after_first_space (text ctx)).
  { apply join_tail_split_space. }
  unfold FileBot.command_args, MemoryBot.command_args.
  unfold SupabaseBot.command_args in *. rewrite H.
  split.
  - intros cmd rest E Hc. rewrite E, (after_first_space_append _ _ Hc). auto.
  - intros Hc. rewrite (after_first_space_none _ Hc). auto.
Qed.

Lemma command_args_after_first_space_witness :
  SupabaseBot.command_args
    (Sample.command_of Sample.boss "/connectgp @my group") = "@my group" /\
  SupabaseBot.command_args (Sample.command_of Sample.boss "/connectgp")
  = EmptyString.
Proof.
  split.
  - apply (command_args_after_first_space
             (Sample.command_of Sample.boss "/connectgp @my group"))
      with (cmd := "/connectgp"); reflexivity.
  - apply (command_args_after_first_space
             (Sample.command_of Sample.boss "/connectgp")). reflexivity.
Defined.

(** ** Connecting *)

Lemma connectgp_run OWNER_ID ctx w :
  User.id (from ctx) = OWNER_ID ->
  truthy (JStr (SupabaseBot.command_args ctx)) = true ->
  let args := SupabaseBot.command_args ctx in
  let o1 := hd Success (faults w) in
  let o2 := hd Success (tl (faults w)) in
  exec (SupabaseBot.connectgp OWNER_ID ctx) w =
  match o1 with
  | Success =>
      mkWorld (JStr args) (Some (JStr args)) (receipts w) (now w)
        (tl (tl (faults w)))
        (trace w ++ [(SettingsUpsert (JStr args), Success);
                     (Reply ("✅ Connected to group and saved to DB: " ++ args), o2)])
  | _ =>
      mkWorld (connectedGroupId w) (settings w) (receipts w) (now w)
        (tl (tl (faults w)))
        (trace w ++ [(SettingsUpsert (JStr args), o1);
                     (ConsoleError (match o1 with
                                    | Rejects => "Error in saveConnection:"
                                    | _ => "Error saving connection:"
                                    end), Success);
                     (Reply "❌ Failed to save connection to DB.", o2)])
  end.
Proof.
  intros Ho Ha. cbv zeta.
  destruct w as [g st rs t fs tr].
  unfold SupabaseBot.connectgp, SupabaseBot.isOwner, SupabaseBot.saveConnection.
  rewrite Ho, Z.eqb_refl. cbv zeta. rewrite Ha. cbn [negb].
  destruct fs as [|[] [|[] fs]]; run_handler; tidy_trace; reflexivity.
Qed.

(** X5. [/connectgp] of the owner in [src/bot.js]. Sent alone it only
    answers with the usage. With a group it writes the settings row: when
    the write succeeds the bot is connected to that group and the owner is
    told so; when it fails the bot stays as it was and the owner is told of
    the failure. *)
Theorem connectgp_by_owner (OWNER_ID : Z) (ctx : Ctx) (w : World) :
  User.id (from ctx) = OWNER_ID ->
  let args := SupabaseBot.command_args ctx in
  let w' := exec (SupabaseBot.connectgp OWNER_ID ctx) w in
  (truthy (JStr args) = false ->
     connectedGroupId w' = connectedGroupId w /\
     settings w' = settings w /\
     trace w' = (trace w ++ [(Reply "Usage: /connectgp <group_id | @username>",
                              hd Success (faults w))])%list) /\
  (truthy (JStr args) = true -> hd Success (faults w) = Success ->
     connectedGroupId w' = JStr args /\
     settings w' = Some (JStr args) /\
     trace w' = (trace w
                 ++ [(SettingsUpsert (JStr args), Success);
                     (Reply ("✅ Connected to group and saved to DB: " ++ args),
                      hd Success (tl (faults w)))])%list) /\
  (truthy (JStr args) = true -> hd Success (faults w) <> Success ->
     connectedGroupId w' = connectedGroupId w /\
     settings w' = settings w /\
     replies (trace w')
     = (replies (trace w) ++ ["❌ Failed to save connection to DB."])%list).
Proof.
  intros Ho. cbv zeta. split; [|split].
  - intros Ha. destruct w as [g st rs t fs tr].
    unfold SupabaseBot.connectgp, SupabaseBot.isOwner.
    rewrite Ho, Z.eqb_refl. cbv zeta. rewrite Ha. cbn [negb].
    destruct fs as [|[] fs]; run_handler; repeat split.
  - intros Ha Hf. rewrite (connectgp_run _ _ _ Ho Ha). cbv zeta. rewrite Hf.
    repeat split.
  - intros Ha Hf. rewrite (connectgp_run _ _ _ Ho Ha). cbv zeta.
    destruct (hd Success (faults w)); [contradiction Hf; reflexivity| |];
      cbn [connectedGroupId settings trace]; rewrite replies_app;
      repeat split.
Qed.

Lemma connectgp_by_owner_witness :
  let ctx := Sample.command_of Sample.boss "/connectgp -100777" in
  let w' := exec (SupabaseBot.connectgp Sample.owner ctx) (Sample.connected []) in
  connectedGroupId w' = JStr "-100777" /\
  settings w' = Some (JStr "-100777") /\
  trace w' = [(SettingsUpsert (JStr "-100777"), Success);
              (Reply "✅ Connected to group and saved to DB: -100777", Success)].
Proof.
  apply (connectgp_by_owner Sample.owner
           (Sample.command_of Sample.boss "/connectgp -100777")
           (Sample.connected [])); reflexivity.
Defined.

(** X6. In [src/bot.js], once a [/connectgp] of the owner has been written,
    the next photo, whoever sends it, is stored and sent to the group the
    owner named (the insertion succeeding). *)
Theorem connect_then_photo_forwards
    (OWNER_ID : Z) (ctx ctx' : Ctx) (w : World) (t : Z) (p : string) :
  User.id (from ctx) = OWNER_ID ->
  truthy (JStr (SupabaseBot.command_args ctx)) = true ->
  hd Success (faults w) = Success ->
  nth_error (photo ctx') (List.length (photo ctx') - 1) = Some p ->
  hd Success (tl (tl (faults w))) = Success ->
  let w1 := exec (SupabaseBot.connectgp OWNER_ID ctx) w in
  let w2 := exec (SupabaseBot.on_photo ctx') (with_now t w1) in
  forwards (trace w2)
  = (forwards (trace w) ++ [(JStr (SupabaseBot.command_args ctx), p)])%list /\
  receipts w2 = (receipts w ++ [SupabaseBot.new_receipt ctx' p t])%list.
Proof.
  intros Ho Ha Hf Hp Hi. cbv zeta.
  rewrite (connectgp_run _ _ _ Ho Ha). cbv zeta. rewrite Hf.
  match goal with
  | |- context [exec (SupabaseBot.on_photo ctx') ?w1] =>
      destruct (on_photo_connected ctx' w1 p Ha Hp) as (_ & _ & H)
  end.
  cbv zeta in H.
  cbn [with_now connectedGroupId settings receipts now faults trace] in H.
  rewrite Hi in H.
  destruct (hd Success (tl (tl (tl (faults w))))),
    (hd Success (tl (tl (tl (tl (faults w))))));
    destruct H as [-> ->]; rewrite !forwards_app; cbn; rewrite !app_nil_r;
    split; reflexivity.
Qed.

Lemma connect_then_photo_forwards_witness :
  let ctx := Sample.command_of Sample.boss "/connectgp -100777" in
  let w1 := exec (SupabaseBot.connectgp Sample.owner ctx) (Sample.connected []) in
  let w2 := exec (SupabaseBot.on_photo (Sample.photo_of Sample.alice))
                 (with_now Sample.jan5_10h w1) in
  forwards (trace w2) = [(JStr "-100777", "big")] /\
  receipts w2
  = [SupabaseBot.new_receipt (Sample.photo_of Sample.alice) "big" Sample.jan5_10h].
Proof.
  apply (connect_then_photo_forwards Sample.owner
           (Sample.command_of Sample.boss "/connectgp -100777")
           (Sample.photo_of Sample.alice) (Sample.connected [])
           Sample.jan5_10h "big"); reflexivity.
Defined.

(** ** Starting the process *)

(** X7. The start of [src/bot.js]. When the settings are read, the bot is
    connected to the group of the row, and to none when there is no row;
    when the read fails (an error comes back, or the call throws), the error
    is logged and the bot starts connected to no group. Nothing else
    changes. *)
Theorem launch_loads_connection (w : World) :
  let w' := exec SupabaseStartup.launch w in
  settings w' = settings w /\
  receipts w' = receipts w /\
  (hd Success (faults w) = Success ->
     connectedGroupId w'
     = match settings w with Some g => g | None => JNull end /\
     trace w' = trace w) /\
  (hd Success (faults w) <> Success ->
     connectedGroupId w' = JNull /\
     exists msg, trace w' = (trace w ++ [(ConsoleError msg, Success)])%list).
Proof.
  destruct w as [g st rs t fs tr].
  unfold SupabaseStartup.launch, SupabaseStartup.loadConnection.
  destruct fs as [|[] fs]; run_handler; destruct st as [v|]; run_handler;
    (split; [reflexivity|]); (split; [reflexivity|]);
    (split; intros H; [try discriminate H; try (split; reflexivity)|]);
    try (exfalso; apply H; reflexivity);
    (split; [reflexivity|eexists; reflexivity]).
Qed.

Lemma launch_loads_connection_witness :
  connectedGroupId (exec SupabaseStartup.launch (Sample.connected []))
  = JStr "-100123" /\
  connectedGroupId (exec SupabaseStartup.launch (Sample.connected [Rejects]))
  = JNull.
Proof.
  split.
  - apply (launch_loads_connection (Sample.connected [])). reflexivity.
  - apply (launch_loads_connection (Sample.connected [Rejects])).
    cbn. discriminate.
Defined.

(** X8. What [saveConnection] of [src/bot.js] writes, the next start reads
    back: after a save that succeeded and a start whose read succeeds, the
    bot is connected to the group that was saved, and to none after a
    [save(null)]. *)
Theorem save_then_launch (groupId : jsval) (w : World) :
  groupId <> JUndefined ->
  hd Success (faults w) = Success ->
  hd Success (tl (faults w)) = Success ->
  connectedGroupId
    (exec SupabaseStartup.launch (exec (SupabaseBot.saveConnection groupId) w))
  = groupId.
Proof.
  intros Hg H1 H2. destruct w as [g st rs t fs tr]. cbn [faults] in H1, H2.
  unfold SupabaseStartup.launch, SupabaseStartup.loadConnection,
    SupabaseBot.saveConnection.
  destruct fs as [|o1 [|o2 fs]]; cbn [hd tl] in H1, H2; try subst o1;
    try subst o2; run_handler;
    destruct groupId; try reflexivity; contradiction Hg; reflexivity.
Qed.

Lemma save_then_launch_witness :
  connectedGroupId
    (exec SupabaseStartup.launch
       (exec (SupabaseBot.saveConnection JNull) (Sample.connected [])))
  = JNull.
Proof.
  apply (save_then_launch JNull (Sample.connected [])).
  - discriminate.
  - reflexivity.
  - reflexivity.
Defined.

(** ** The file variants *)

Lemma file_connectgp_run OWNER_ID ctx w :
  User.id (from ctx) = OWNER_ID ->
  truthy (JStr (FileBot.command_args ctx)) = true ->
  let args := FileBot.command_args ctx in
  FileBot.connectgp OWNER_ID ctx w =
  match hd Success (faults w) with
  | Success =>
      (match hd Success (tl (faults w)) with
       | Success => inl tt
       | _ => inr (Rejected (Reply ("✅ Connected to group: " ++ args)))
       end,
       mkWorld (JStr args) (Some (JStr args)) (receipts w) (now w)
         (tl (tl (faults w)))
         (trace w ++ [(WriteFile (JStr args), Success);
                      (Reply ("✅ Connected to group: " ++ args),
                       hd Success (tl (faults w)))]))
  | o =>
      (inr (Rejected (WriteFile (JStr args))),
       mkWorld (JStr args) (settings w) (receipts w) (now w) (tl (faults w))
         (trace w ++ [(WriteFile (JStr args), o)]))
  end.
Proof.
  intros Ho Ha. cbv zeta. destruct w as [g st rs t fs tr].
  unfold FileBot.connectgp, FileBot.saveConnection.
  rewrite Ho, Z.eqb_refl. cbv zeta. rewrite Ha. cbn [negb].
  destruct fs as [|[] [|[] fs]]; run_handler; tidy_trace; reflexivity.
Qed.

(** X9. In the file variants [/connectgp] of the owner sets the variable
    before it writes the file. When the write throws, the handler stops
    there: the bot is connected to the new group in memory, the file keeps
    what it had, and the owner gets no answer. *)
Theorem file_connectgp_write_failure (OWNER_ID : Z) (ctx : Ctx) (w : World) :
  User.id (from ctx) = OWNER_ID ->
  truthy (JStr (FileBot.command_args ctx)) = true ->
  hd Success (faults w) <> Success ->
  let args := FileBot.command_args ctx in
  let w' := exec (FileBot.connectgp OWNER_ID ctx) w in
  connectedGroupId w' = JStr args /\
  settings w' = settings w /\
  result (FileBot.connectgp OWNER_ID ctx) w = inr (Rejected (WriteFile (JStr args))) /\
  trace w' = (trace w ++ [(WriteFile (JStr args), hd Success (faults w))])%list /\
  replies (trace w') = replies (trace w).
Proof.
  intros Ho Ha Hf. cbv zeta. unfold exec, result.
  rewrite (file_connectgp_run _ _ _ Ho Ha). cbv zeta.
  destruct (hd Success (faults w)); [contradiction Hf; reflexivity| |];
    cbn [fst snd connectedGroupId settings trace]; rewrite replies_app;
    cbn; rewrite app_nil_r; repeat split.
Qed.

Lemma file_connectgp_write_failure_witness :
  let ctx := Sample.command_of Sample.boss "/connectgp -100777" in
  let w' := exec (FileBot.connectgp Sample.owner ctx) (Sample.connected [Rejects]) in
  connectedGroupId w' = JStr "-100777" /\
  settings w' = Some (JStr "-100123") /\
  result (FileBot.connectgp Sample.owner ctx) (Sample.connected [Rejects])
  = inr (Rejected (WriteFile (JStr "-100777"))) /\
  trace w' = [(WriteFile (JStr "-100777"), Rejects)] /\
  replies (trace w') = [].
Proof.
  apply (file_connectgp_write_failure Sample.owner
           (Sample.command_of Sample.boss "/connectgp -100777")
           (Sample.connected [Rejects])).
  - reflexivity.
  - reflexivity.
  - cbn. discriminate.
Defined.

(** X10. What the file variants write, their next start reads back: after a
    [/connectgp] of the owner whose write succeeded the next start connects
    the bot to that group, and after a [/disconnect] whose write succeeded
    the next start leaves it connected to none. *)
Theorem file_save_then_launch (OWNER_ID : Z) (ctx : Ctx) (w : World) :
  User.id (from ctx) = OWNER_ID ->
  hd Success (faults w) = Success ->
  (truthy (JStr (FileBot.command_args ctx)) = true ->
   connectedGroupId
     (exec FileStartup.launch (exec (FileBot.connectgp OWNER_ID ctx) w))
   = JStr (FileBot.command_args ctx)) /\
  connectedGroupId
    (exec FileStartup.launch (exec (FileBot.disconnect OWNER_ID ctx) w))
  = JNull.
Proof.
  intros Ho Hf. split.
  - intros Ha. unfold exec at 2. rewrite (file_connectgp_run _ _ _ Ho Ha).
    cbv zeta. rewrite Hf. cbn [snd]. unfold FileStartup.launch. run_handler.
    rewrite Ha. reflexivity.
  - destruct w as [g st rs t fs tr]. cbn [faults] in Hf.
    unfold FileBot.disconnect, FileBot.saveConnection, FileStartup.launch.
    rewrite Ho, Z.eqb_refl. cbn [negb].
    destruct fs as [|o [|[] fs]]; cbn [hd] in Hf; try subst o; reflexivity.
Qed.

Lemma file_save_then_launch_witness :
  let ctx := Sample.command_of Sample.boss "/connectgp -100777" in
  connectedGroupId
    (exec FileStartup.launch
       (exec (FileBot.connectgp Sample.owner ctx) (Sample.connected [])))
  = JStr "-100777".
Proof.
  apply (file_save_then_launch Sample.owner
           (Sample.command_of Sample.boss "/connectgp -100777")
           (Sample.connected [])); reflexivity.
Defined.

(** X11. In the file variants [/disconnect] of the owner sets the variable
    to [null] before it writes the file: whatever the write does, the bot is
    connected to no group afterwards, and a photo is then answered with the
    not-connected reply and sent to no group. *)
Theorem file_disconnect_disables_forwarding
    (escaped : bool) (OWNER_ID : Z) (ctx ctx' : Ctx) (w : World) (t : Z) :
  User.id (from ctx) = OWNER_ID ->
  let w1 := exec (FileBot.disconnect OWNER_ID ctx) w in
  let w2 := exec (FileBot.on_photo escaped ctx') (with_now t w1) in
  connectedGroupId w1 = JNull /\
  forwards (trace w1) = forwards (trace w) /\
  trace w2 = (trace w1 ++ [(Reply FileBot.notConnected,
                            hd Success (faults w1))])%list /\
  connectedGroupId w2 = JNull.
Proof.
  intros Ho. cbv zeta. destruct w as [g st rs t0 fs tr].
  unfold FileBot.disconnect, FileBot.saveConnection, FileBot.on_photo.
  rewrite Ho, Z.eqb_refl. cbn [negb].
  destruct fs as [|[] [|[] [|[] fs]]]; run_handler; tidy_trace;
    rewrite forwards_app; cbn; rewrite app_nil_r; repeat split;
    tidy_trace; reflexivity.
Qed.

Lemma file_disconnect_disables_forwarding_witness :
  let w1 := exec (FileBot.disconnect Sample.owner
                    (Sample.command_of Sample.boss "/disconnect"))
                 (Sample.connected [Rejects]) in
  let w2 := exec (FileBot.on_photo true (Sample.photo_of Sample.alice))
                 (with_now Sample.jan5_10h w1) in
  connectedGroupId w1 = JNull /\
  forwards (trace w1) = [] /\
  trace w2 = (trace w1 ++ [(Reply FileBot.notConnected, Success)])%list /\
  connectedGroupId w2 = JNull.
Proof.
  apply (file_disconnect_disables_forwarding true Sample.owner
           (Sample.command_of Sample.boss "/disconnect")
           (Sample.photo_of Sample.alice) (Sample.connected [Rejects])
           Sample.jan5_10h).
  reflexivity.
Defined.

(** ** The program that keeps the group in memory *)

(** X12. In the earlier program at the end of [src/bot.js], a photo received
    while the bot is connected is sent to the group and that is all: nothing
    is stored and no message goes to the sender, whether the sending
    succeeds or fails (a failure is logged). *)
Theorem memory_on_photo_only_forwards (ctx : Ctx) (w : World) (p : string) :
  truthy (connectedGroupId w) = true ->
  nth_error (photo ctx) (List.length (photo ctx) - 1) = Some p ->
  let w' := exec (MemoryBot.on_photo ctx) w in
  let o := hd Success (faults w) in
  trace w' =
    (trace w
     ++ (SendPhoto (connectedGroupId w) p (MemoryBot.caption ctx) "Markdown", o)
        :: match o with
           | Success => []
           | _ => [(ConsoleError "Error forwarding photo:", Success)]
           end)%list /\
  replies (trace w') = replies (trace w) /\
  receipts w' = receipts w /\
  connectedGroupId w' = connectedGroupId w.
Proof.
  destruct w as [g st rs t fs tr]. cbn [connectedGroupId faults].
  intros Hc Hp. cbv zeta. unfold MemoryBot.on_photo.
  run_handler. rewrite Hc, Hp. run_handler.
  destruct fs as [|[] fs]; run_handler; tidy_trace; rewrite replies_app; cbn;
    rewrite app_nil_r; repeat split.
Qed.

Lemma memory_on_photo_only_forwards_witness :
  let ctx := Sample.photo_of Sample.alice in
  let w' := exec (MemoryBot.on_photo ctx) (Sample.connected []) in
  trace w' = [(SendPhoto (JStr "-100123") "big" (MemoryBot.caption ctx) "Markdown",
               Success)] /\
  replies (trace w') = [] /\
  receipts w' = [] /\
  connectedGroupId w' = JStr "-100123".
Proof.
  apply (memory_on_photo_only_forwards (Sample.photo_of Sample.alice)
           (Sample.connected []) "big"); reflexivity.
Defined.

(** X13. In that program too the two commands are the owner's: from anyone
    else they leave the world as it is. From the owner, [/connectgp] with a
    group connects the bot to it and [/disconnectgp] leaves it connected to
    none, after which a photo only gets the not-connected reply. *)
Theorem memory_commands (OWNER_ID : Z) (ctx ctx' : Ctx) (w : World) :
  (User.id (from ctx) <> OWNER_ID ->
     exec (MemoryBot.connectgp OWNER_ID ctx) w = w /\
     exec (MemoryBot.disconnectgp OWNER_ID ctx) w = w) /\
  (User.id (from ctx) = OWNER_ID ->
     truthy (JStr (MemoryBot.command_args ctx)) = true ->
     connectedGroupId (exec (MemoryBot.connectgp OWNER_ID ctx) w)
     = JStr (MemoryBot.command_args ctx)) /\
  (User.id (from ctx) = OWNER_ID ->
     let w1 := exec (MemoryBot.disconnectgp OWNER_ID ctx) w in
     connectedGroupId w1 = JNull /\
     trace (exec (MemoryBot.on_photo ctx') w1)
     = (trace w1 ++ [(Reply MemoryBot.notConnected, hd Success (faults w1))])%list).
Proof.
  unfold MemoryBot.connectgp, MemoryBot.disconnectgp, MemoryBot.on_photo.
  split; [|split].
  - intros Hne. apply Z.eqb_neq in Hne. rewrite Hne. split; reflexivity.
  - intros Ho Ha. rewrite Ho, Z.eqb_refl. cbv zeta. rewrite Ha. cbn [negb].
    destruct w as [g st rs t fs tr]. destruct fs as [|[] fs]; reflexivity.
  - intros Ho. rewrite Ho, Z.eqb_refl. cbn [negb]. cbv zeta.
    destruct w as [g st rs t fs tr].
    destruct fs as [|[] [|[] fs]]; run_handler; cbn [truthy]; run_handler;
      tidy_trace; split; reflexivity.
Qed.

Lemma memory_commands_witness :
  exec (MemoryBot.connectgp Sample.owner
          (Sample.command_of Sample.alice "/connectgp -1")) (Sample.connected [])
  = Sample.connected [] /\
  connectedGroupId
    (exec (MemoryBot.connectgp Sample.owner
             (Sample.command_of Sample.boss "/connectgp -100777"))
          (Sample.connected []))
  = JStr "-100777" /\
  connectedGroupId
    (exec (MemoryBot.disconnectgp Sample.owner
             (Sample.command_of Sample.boss "/disconnectgp"))
          (Sample.connected []))
  = JNull.
Proof.
  split; [|split].
  - apply (memory_commands Sample.owner
             (Sample.command_of Sample.alice "/connectgp -1")
             (Sample.photo_of Sample.alice) (Sample.connected [])).
    cbn. discriminate.
  - apply (memory_commands Sample.owner
             (Sample.command_of Sample.boss "/connectgp -100777")
             (Sample.photo_of Sample.alice) (Sample.connected [])); reflexivity.
  - apply (memory_commands Sample.owner
             (Sample.command_of Sample.boss "/disconnectgp")
             (Sample.photo_of Sample.alice) (Sample.connected [])). reflexivity.
Defined.

(** ** The keyboard of the date listing *)

(** X14. The keyboard of the listing lays the buttons out in their order,
    three to a row: every row has one to three buttons, the rows put end to
    end are the buttons, and their number is the number of buttons divided
    by three, rounded up. *)
Theorem keyboard_rows {A : Type} (buttons : list A) :
  List.concat (SupabaseBot.rows_of_3 buttons) = buttons /\
  Forall (fun row => (1 <= List.length row <= 3)%nat)
         (SupabaseBot.rows_of_3 buttons) /\
  List.length (SupabaseBot.rows_of_3 buttons)
  = Nat.div (List.length buttons + 2) 3.
Proof.
  split; [apply rows_of_3_concat|]. split.
  - unfold SupabaseBot.rows_of_3. apply Forall_map, Forall_forall.
    intros i Hi. apply in_seq in Hi.
    rewrite length_firstn, length_skipn.
    pose proof (Nat.div_mod_eq (List.length buttons + 2) 3) as H.
    pose proof (Nat.mod_upper_bound (List.length buttons + 2) 3). lia.
  - unfold SupabaseBot.rows_of_3. rewrite length_map, length_seq. reflexivity.
Qed.

(** ** The order of the date keys *)

Lemma existsb_eqb_false x l :
  existsb (String.eqb x) l = false <-> ~ In x l.
Proof.
  rewrite <- existsb_eqb_In. destruct (existsb (String.eqb x) l); split;
    congruence.
Qed.

Lemma filter_twice {A} (f g : A -> bool) l :
  filter f (filter g l) = filter (fun x => f x && g x) l.
Proof.
  induction l as [|x l IH]; [reflexivity|]. cbn [filter].
  destruct (g x); cbn [filter]; rewrite ?andb_true_r, ?andb_false_r;
    [destruct (f x)|]; rewrite IH; reflexivity.
Qed.

Lemma fold_set_add_first_occurrences l :
  forall acc,
    fold_left SupabaseBot.set_add l acc
    = (acc ++ filter (fun y => negb (existsb (String.eqb y) acc))
                     (Rendering.first_occurrences l))%list.
Proof.
  induction l as [|x r IH]; intros acc;
    cbn [fold_left Rendering.first_occurrences filter].
  - symmetry. apply app_nil_r.
  - rewrite IH. unfold SupabaseBot.set_add.
    destruct (existsb (String.eqb x) acc) eqn:E; cbn [negb].
    + f_equal. rewrite filter_twice. apply filter_ext. intros y.
      destruct (existsb (String.eqb y) acc) eqn:Ey; cbn [negb andb];
        [reflexivity|].
      destruct (String.eqb_spec y x) as [->|_]; [congruence|reflexivity].
    + rewrite <- app_assoc. cbn [app]. f_equal. f_equal.
      rewrite filter_twice. apply filter_ext. intros y.
      rewrite existsb_app. cbn [existsb]. rewrite orb_false_r, negb_orb.
      reflexivity.
Qed.

(** X15. The date keys of the listing come in the order in which the store
    gives the receipts, each day at the place of its first receipt: the
    listing does not sort the days. *)
Theorem uniqueDates_first_occurrences (data : list Z) :
  SupabaseBot.uniqueDates data
  = Rendering.first_occurrences (map format_DDMMYY data).
Proof.
  unfold SupabaseBot.uniqueDates, SupabaseBot.new_Set.
  rewrite fold_set_add_first_occurrences. cbn [app existsb negb].
  induction (Rendering.first_occurrences (map format_DDMMYY data))
    as [|k l IH]; [reflexivity|].
  cbn [filter]. rewrite IH. reflexivity.
Qed.

(** ** The listing and the detail, when there is nothing or when a call fails *)

(** X16. The date listing of [src/bot.js], asked by the owner. On an empty
    table it answers that there are no receipts and shows no keyboard. When
    the reading of the table fails (an error comes back, or the call throws)
    it logs the error and answers with the error message. In neither case
    does the state change. *)
Theorem receipt_listing_edges (OWNER_ID : Z) (ctx : Ctx) (w : World) :
  User.id (from ctx) = OWNER_ID ->
  let w' := exec (SupabaseBot.receipt OWNER_ID ctx) w in
  frame w w' /\
  (hd Success (faults w) = Success -> receipts w = [] ->
     trace w' = (trace w ++ [(ReceiptsSelectDates, Success);
                             (Reply "No receipts found in database.",
                              hd Success (tl (faults w)))])%list) /\
  (hd Success (faults w) <> Success ->
     trace w' = (trace w ++ [(ReceiptsSelectDates, hd Success (faults w));
                             (ConsoleError "Error fetching receipt dates:", Success);
                             (Reply "Error fetching receipt dates.",
                              hd Success (tl (faults w)))])%list).
Proof.
  intros Ho. cbv zeta. split; [apply framed_receipt|].
  destruct w as [g st rs t fs tr]. cbn [faults receipts trace].
  unfold SupabaseBot.receipt, SupabaseBot.isOwner. rewrite Ho, Z.eqb_refl.
  split.
  - intros Hf ->.
    destruct fs as [|o [|[] fs]]; cbn [hd] in Hf; try subst o; run_handler;
      cbn [map]; run_handler; tidy_trace; reflexivity.
  - intros Hf.
    destruct fs as [|[] [|[] fs]]; try (contradiction Hf; reflexivity);
      run_handler; tidy_trace; reflexivity.
Qed.

Lemma receipt_listing_edges_witness :
  let ctx := Sample.command_of Sample.boss "/receipt" in
  trace (exec (SupabaseBot.receipt Sample.owner ctx) (Sample.connected []))
  = [(ReceiptsSelectDates, Success);
     (Reply "No receipts found in database.", Success)] /\
  trace (exec (SupabaseBot.receipt Sample.owner ctx) (Sample.store [ErrorResult]))
  = [(ReceiptsSelectDates, ErrorResult);
     (ConsoleError "Error fetching receipt dates:", Success);
     (Reply "Error fetching receipt dates.", Success)].
Proof.
  split.
  - apply (receipt_listing_edges Sample.owner
             (Sample.command_of Sample.boss "/receipt") (Sample.connected []));
      reflexivity.
  - apply (receipt_listing_edges Sample.owner
             (Sample.command_of Sample.boss "/receipt")
             (Sample.store [ErrorResult])); [reflexivity|].
    cbn. discriminate.
Defined.

(** X17. The date detail of [src/bot.js], asked by the owner. When the answer
    to the button fails the handler stops before it asks the store. When the
    query fails it logs the error and sends the error message, and replays
    nothing. When the day has no receipt it says so, and replays nothing. In
    no case does the state change. *)
Theorem receipt_date_edges (OWNER_ID : Z) (ctx : Ctx) (w : World) (ymd : Z * Z * Z) :
  User.id (from ctx) = OWNER_ID ->
  parse_DDMMYY (match1 ctx) = Some ymd ->
  let w' := exec (SupabaseBot.receipt_date OWNER_ID ctx) w in
  let answer :=
    AnswerCbQuery ("Fetching receipts for " ++ match1 ctx ++ "...") in
  let query :=
    ReceiptsSelectRange (Some (startOfDay ymd)) (Some (endOfDay ymd)) in
  frame w w' /\
  (hd Success (faults w) <> Success ->
     trace w' = (trace w ++ [(answer, hd Success (faults w))])%list) /\
  (hd Success (faults w) = Success ->
   hd Success (tl (faults w)) <> Success ->
     trace w' = (trace w
                 ++ [(answer, Success);
                     (query, hd Success (tl (faults w)));
                     (ConsoleError "Error fetching receipts by date:", Success);
                     (Reply "An error occurred while fetching receipts.",
                      hd Success (tl (tl (faults w))))])%list) /\
  (hd Success (faults w) = Success ->
   hd Success (tl (faults w)) = Success ->
   SupabaseBot.fetch_day (match1 ctx) (receipts w) = Some [] ->
     trace w' = (trace w
                 ++ [(answer, Success); (query, Success);
                     (Reply ("No receipts found for " ++ match1 ctx ++ "."),
                      hd Success (tl (tl (faults w))))])%list).
Proof.
  intros Ho Hp. cbv zeta. split; [apply framed_receipt_date|].
  unfold SupabaseBot.fetch_day. rewrite Hp. cbn [option_map].
  destruct w as [g st rs t fs tr]. cbn [faults receipts trace].
  unfold SupabaseBot.receipt_date, SupabaseBot.isOwner. rewrite Ho, Z.eqb_refl.
  cbv zeta. rewrite Hp. cbn [option_map].
  split; [|split].
  - intros Hf.
    destruct fs as [|[] fs]; try (contradiction Hf; reflexivity);
      run_handler; reflexivity.
  - intros H1 H2.
    destruct fs as [|o1 [|[] [|[] fs]]]; cbn [hd tl] in H1, H2; try subst o1;
      try (contradiction H2; reflexivity); run_handler; tidy_trace; reflexivity.
  - intros H1 H2 Hsel.
    destruct fs as [|o1 [|o2 [|[] fs]]]; cbn [hd tl] in H1, H2; try subst o1;
      try subst o2; run_handler; rewrite Hsel; run_handler; tidy_trace;
      reflexivity.
Qed.

Lemma receipt_date_edges_witness :
  let ctx := Sample.press_of Sample.boss "07/01/24" in
  trace (exec (SupabaseBot.receipt_date Sample.owner ctx) (Sample.store []))
  = [(AnswerCbQuery "Fetching receipts for 07/01/24...", Success);
     (ReceiptsSelectRange (Some (startOfDay (2024, 1, 7)))
                          (Some (endOfDay (2024, 1, 7))), Success);
     (Reply "No receipts found for 07/01/24.", Success)] /\
  trace (exec (SupabaseBot.receipt_date Sample.owner ctx)
              (Sample.store [Success; Rejects]))
  = [(AnswerCbQuery "Fetching receipts for 07/01/24...", Success);
     (ReceiptsSelectRange (Some (startOfDay (2024, 1, 7)))
                          (Some (endOfDay (2024, 1, 7))), Rejects);
     (ConsoleError "Error fetching receipts by date:", Success);
     (Reply "An error occurred while fetching receipts.", Success)] /\
  trace (exec (SupabaseBot.receipt_date Sample.owner ctx)
              (Sample.store [Rejects]))
  = [(AnswerCbQuery "Fetching receipts for 07/01/24...", Rejects)].
Proof.
  split; [|split].
  - apply (receipt_date_edges Sample.owner
             (Sample.press_of Sample.boss "07/01/24") (Sample.store [])
             (2024, 1, 7)); reflexivity.
  - apply (receipt_date_edges Sample.owner
             (Sample.press_of Sample.boss "07/01/24")
             (Sample.store [Success; Rejects]) (2024, 1, 7));
      try reflexivity. cbn. discriminate.
  - apply (receipt_date_edges Sample.owner
             (Sample.press_of Sample.boss "07/01/24")
             (Sample.store [Rejects]) (2024, 1, 7));
      try reflexivity. cbn. discriminate.
Defined.

Lemma external_fails c w :
  hd Success (faults w) <> Success ->
  external c w =
  (inr (Rejected c),
   mkWorld (connectedGroupId w) (settings w) (receipts w) (now w)
           (tl (faults w)) (trace w ++ [(c, hd Success (faults w))])).
Proof.
  destruct w as [g st rs t fs tr]. cbn [faults]. intros H.
  destruct fs as [|[] fs]; try reflexivity; contradiction H; reflexivity.
Qed.

(** ** The heading of the date detail *)

Lemma count_class_append cls a b :
  Rendering.count_class cls (a ++ b)
  = (Rendering.count_class cls a + Rendering.count_class cls b)%nat.
Proof.
  induction a as [|c r IH]; [reflexivity|].
  cbn [String.append Rendering.count_class]. rewrite IH. lia.
Qed.

Lemma digit_char_not_backtick n :
  Ascii.eqb "`" (ascii_of_nat (Z.to_nat (48 + n mod 10))) = false.
Proof.
  pose proof (Z.mod_pos_bound n 10 ltac:(lia)) as H.
  remember (n mod 10) as m eqn:E. clear E.
  assert (Hm : m = 0 \/ m = 1 \/ m = 2 \/ m = 3 \/ m = 4 \/ m = 5 \/ m = 6
               \/ m = 7 \/ m = 8 \/ m = 9) by lia.
  destruct Hm as [->|[->|[->|[->|[->|[->|[->|[->|[->| ->]]]]]]]]]; reflexivity.
Qed.

Lemma digits_aux_no_backtick fuel :
  forall n acc,
    Rendering.count_class (Ascii.eqb "`") (digits_aux fuel n acc)
    = Rendering.count_class (Ascii.eqb "`") acc.
Proof.
  induction fuel as [|fuel IH]; intros n acc; cbn [digits_aux]; [reflexivity|].
  destruct (n <? 10); [|rewrite IH]; cbn [Rendering.count_class];
    rewrite digit_char_not_backtick; reflexivity.
Qed.

Lemma count_no_backtick (n : nat) :
  Rendering.count_class (Ascii.eqb "`") (string_of_Z (Z.of_nat n)) = O.
Proof.
  unfold string_of_Z.
  destruct (Z.ltb_spec (Z.of_nat n) 0) as [H|_]; [lia|].
  unfold string_of_nonneg. apply digits_aux_no_backtick.
Qed.

Lemma digit_not_backtick c x : digit c = Some x -> Ascii.eqb "`" c = false.
Proof.
  intros H. destruct (Ascii.eqb_spec "`" c) as [<-|_]; [discriminate H|reflexivity].
Qed.

Lemma key_no_backtick s ymd :
  parse_DDMMYY s = Some ymd ->
  Rendering.count_class (Ascii.eqb "`") s = O.
Proof.
  unfold parse_DDMMYY. intros H.
  rewrite <- (string_of_list_ascii_of_string s).
  destruct (list_ascii_of_string s)
    as [|d1 [|d2 [|s1 [|m1 [|m2 [|s2 [|y1 [|y2 [|? ?]]]]]]]]];
    try discriminate H.
  destruct (Ascii.eqb_spec s1 "/") as [->|]; [|discriminate H].
  destruct (Ascii.eqb_spec s2 "/") as [->|]; [|discriminate H].
  cbn [andb] in H. unfold two_digits in H.
  destruct (digit d1) eqn:E1; [|discriminate H].
  destruct (digit d2) eqn:E2; [|discriminate H].
  destruct (digit m1) eqn:E3; [|discriminate H].
  destruct (digit m2) eqn:E4; [|discriminate H].
  destruct (digit y1) eqn:E5; [|discriminate H].
  destruct (digit y2) eqn:E6; [|discriminate H].
  cbn [string_of_list_ascii Rendering.count_class].
  rewrite (digit_not_backtick _ _ E1), (digit_not_backtick _ _ E2),
    (digit_not_backtick _ _ E3), (digit_not_backtick _ _ E4),
    (digit_not_backtick _ _ E5), (digit_not_backtick _ _ E6).
  reflexivity.
Qed.

Lemma stray_paren_from_cons prev c r :
  MarkdownV2.stray_paren_from prev (String c r)
  = if Ascii.eqb c "\" then
      match r with
      | EmptyString => false
      | String _ r' => MarkdownV2.stray_paren_from " " r'
      end
    else if Ascii.eqb c "(" then
      negb (Ascii.eqb prev "]") || MarkdownV2.stray_paren_from c r
    else MarkdownV2.stray_paren_from c r.
Proof. reflexivity. Qed.

Lemma stray_paren_after_star rest a :
  (forall prev,
     MarkdownV2.stray_paren_from prev
       (a ++ String "*" (String " " (String "(" rest))) = true) /\
  (forall prev c,
     MarkdownV2.stray_paren_from prev
       (String c a ++ String "*" (String " " (String "(" rest))) = true).
Proof.
  induction a as [|d a [IH1 IH2]].
  - assert (H1 : forall prev,
              MarkdownV2.stray_paren_from prev
                (String "*" (String " " (String "(" rest))) = true)
      by (intros prev; reflexivity).
    split; [exact H1|]. intros prev c.
    cbn [String.append]. rewrite stray_paren_from_cons.
    destruct (Ascii.eqb c "\"); [reflexivity|].
    destruct (Ascii.eqb c "("); [rewrite H1; apply orb_true_r|apply H1].
  - split; [intros prev; apply IH2|]. intros prev c.
    specialize (IH2 c d). cbn [String.append] in IH2 |- *.
    rewrite stray_paren_from_cons.
    destruct (Ascii.eqb c "\"); [apply IH1|].
    destruct (Ascii.eqb c "("); [rewrite IH2; apply orb_true_r|exact IH2].
Qed.

(** Whatever the day and the number of receipts, the heading has a
    parenthesis that is not escaped, in a text without code. *)
Lemma heading_has_stray_paren dateStr ymd n :
  parse_DDMMYY dateStr = Some ymd ->
  MarkdownV2.stray_paren (MarkdownV2.heading dateStr n) = true.
Proof.
  intros Hp. unfold MarkdownV2.stray_paren, MarkdownV2.heading.
  apply andb_true_iff. split.
  - rewrite !count_class_append, (key_no_backtick _ _ Hp), count_no_backtick.
    reflexivity.
  - rewrite <- append_assoc.
    apply (stray_paren_after_star
             (string_of_Z (Z.of_nat n) ++ " found):")
             ("🧾 *Receipts for " ++ dateStr)).
Qed.

Lemma photo_replies_app a b :
  MarkdownV2.photo_replies (a ++ b)
  = (MarkdownV2.photo_replies a ++ MarkdownV2.photo_replies b)%list.
Proof. apply flat_map_app. Qed.

(** X18. On a day that has receipts, the date detail of [src/bot.js] first
    sends a heading as MarkdownV2 whose parentheses are not escaped. When
    that message is refused, the handler replays nothing: it logs the error
    and sends the owner the error message. *)
Theorem receipt_date_heading_rejected
    (OWNER_ID : Z) (ctx : Ctx) (w : World) (ymd : Z * Z * Z)
    (data : list Receipt) :
  User.id (from ctx) = OWNER_ID ->
  parse_DDMMYY (match1 ctx) = Some ymd ->
  SupabaseBot.fetch_day (match1 ctx) (receipts w) = Some data ->
  data <> [] ->
  hd Success (faults w) = Success ->
  hd Success (tl (faults w)) = Success ->
  hd Success (tl (tl (faults w))) <> Success ->
  let w' := exec (SupabaseBot.receipt_date OWNER_ID ctx) w in
  MarkdownV2.stray_paren
    (MarkdownV2.heading (match1 ctx) (List.length data)) = true /\
  trace w' =
    (trace w
     ++ [(AnswerCbQuery ("Fetching receipts for " ++ match1 ctx ++ "..."), Success);
         (ReceiptsSelectRange (Some (startOfDay ymd)) (Some (endOfDay ymd)),
          Success);
         (ReplyMarkdownV2 (MarkdownV2.heading (match1 ctx) (List.length data)),
          hd Success (tl (tl (faults w))));
         (ConsoleError "Error fetching receipts by date:", Success);
         (Reply "An error occurred while fetching receipts.",
          hd Success (tl (tl (tl (faults w)))))])%list /\
  MarkdownV2.photo_replies (trace w') = MarkdownV2.photo_replies (trace w).
Proof.
  intros Ho Hp Hsel Hne H1 H2 H3. cbv zeta.
  split; [exact (heading_has_stray_paren _ _ _ Hp)|].
  unfold SupabaseBot.fetch_day in Hsel. rewrite Hp in Hsel.
  cbn [option_map] in Hsel.
  assert (Ht : trace (exec (SupabaseBot.receipt_date OWNER_ID ctx) w) =
    (trace w
     ++ [(AnswerCbQuery ("Fetching receipts for " ++ match1 ctx ++ "..."), Success);
         (ReceiptsSelectRange (Some (startOfDay ymd)) (Some (endOfDay ymd)),
          Success);
         (ReplyMarkdownV2 (MarkdownV2.heading (match1 ctx) (List.length data)),
          hd Success (tl (tl (faults w))));
         (ConsoleError "Error fetching receipts by date:", Success);
         (Reply "An error occurred while fetching receipts.",
          hd Success (tl (tl (tl (faults w)))))])%list).
  { unfold SupabaseBot.receipt_date, SupabaseBot.isOwner, exec.
    rewrite Ho, Z.eqb_refl. cbv zeta. rewrite Hp. cbn [option_map].
    unfold bind, try_catch, ret.
    rewrite external_ok by exact H1.
    rewrite store_call_ok by exact H2.
    cbn [connectedGroupId settings receipts now faults trace].
    rewrite Hsel.
    destruct data as [|x data]; [contradiction Hne; reflexivity|].
    rewrite external_fails by exact H3.
    cbn [connectedGroupId settings receipts now faults trace].
    unfold MarkdownV2.heading.
    destruct (tl (tl (tl (faults w)))) as [|[] rest]; run_handler;
      rewrite <- !app_assoc; reflexivity. }
  split; [exact Ht|]. rewrite Ht, photo_replies_app. cbn. apply app_nil_r.
Qed.

Lemma receipt_date_heading_rejected_witness :
  let ctx := Sample.press_of Sample.boss "05/01/24" in
  let w := Sample.store [Success; Success; ErrorResult] in
  let w' := exec (SupabaseBot.receipt_date Sample.owner ctx) w in
  MarkdownV2.stray_paren (MarkdownV2.heading "05/01/24" 2) = true /\
  trace w' =
    [(AnswerCbQuery "Fetching receipts for 05/01/24...", Success);
     (ReceiptsSelectRange (Some (startOfDay (2024, 1, 5)))
                          (Some (endOfDay (2024, 1, 5))), Success);
     (ReplyMarkdownV2 (MarkdownV2.heading "05/01/24" 2), ErrorResult);
     (ConsoleError "Error fetching receipts by date:", Success);
     (Reply "An error occurred while fetching receipts.", Success)] /\
  MarkdownV2.photo_replies (trace w') = [].
Proof.
  apply (receipt_date_heading_rejected Sample.owner
           (Sample.press_of Sample.boss "05/01/24")
           (Sample.store [Success; Success; ErrorResult]) (2024, 1, 5)
           [Sample.receipt_at Sample.jan5_10h;
            Sample.receipt_at (Sample.jan5_10h + 3600000)]);
    try reflexivity; discriminate.
Defined.

(** C2. The date detail of [src/bot.js] does not replay the receipts of a
    day that has some. On the sample store the press on the 5th of January
    2024 fetches the two receipts of that day, the earlier one first; the
    heading the handler then sends as MarkdownV2 has its parentheses
    unescaped; the message being refused, the handler logs the error, sends
    the owner the error message, and no receipt is replayed. *)
Theorem receipt_date_replays_nothing :
  let ctx := Sample.press_of Sample.boss "05/01/24" in
  let w := Sample.store [Success; Success; Rejects] in
  let w' := exec (SupabaseBot.receipt_date Sample.owner ctx) w in
  SupabaseBot.fetch_day "05/01/24" (receipts w)
  = Some [Sample.receipt_at Sample.jan5_10h;
          Sample.receipt_at (Sample.jan5_10h + 3600000)] /\
  MarkdownV2.heading "05/01/24" 2 = "🧾 *Receipts for 05/01/24* (2 found):" /\
  MarkdownV2.stray_paren (MarkdownV2.heading "05/01/24" 2) = true /\
  trace w' =
    [(AnswerCbQuery "Fetching receipts for 05/01/24...", Success);
     (ReceiptsSelectRange (Some (startOfDay (2024, 1, 5)))
                          (Some (endOfDay (2024, 1, 5))), Success);
     (ReplyMarkdownV2 "🧾 *Receipts for 05/01/24* (2 found):", Rejects);
     (ConsoleError "Error fetching receipts by date:", Success);
     (Reply "An error occurred while fetching receipts.", Success)] /\
  MarkdownV2.photo_replies (trace w') = [].
Proof. cbv zeta. repeat split; reflexivity. Qed.

(** ** A photo message without a photo *)

(** X19. On a photo message whose list of sizes is empty, the bot being
    connected: [src/bot.js] reads the photo before anything else and throws,
    so that nothing is stored, sent or answered; the other programs read it
    inside their [try], log the error, and send nothing either. *)
Theorem on_photo_without_sizes (ctx : Ctx) (w : World) :
  truthy (connectedGroupId w) = true ->
  photo ctx = [] ->
  SupabaseBot.on_photo ctx w = (inr TypeError, w) /\
  (forall escaped,
     FileBot.on_photo escaped ctx w
     = (inl tt,
        with_trace (trace w ++ [(ConsoleError "Error handling photo:", Success)]) w)) /\
  MemoryBot.on_photo ctx w
  = (inl tt,
     with_trace (trace w ++ [(ConsoleError "Error forwarding photo:", Success)]) w).
Proof.
  destruct w as [g st rs t fs tr]. cbn [connectedGroupId trace]. intros Hc Hp.
  unfold SupabaseBot.on_photo, SupabaseBot.largest_photo, FileBot.on_photo,
    FileBot.largest_photo, MemoryBot.on_photo.
  rewrite Hp. run_handler. rewrite Hc. run_handler.
  split; [reflexivity|]. split; [intros escaped|]; reflexivity.
Qed.

Lemma on_photo_without_sizes_witness :
  SupabaseBot.on_photo (Sample.command_of Sample.alice EmptyString)
                       (Sample.connected [])
  = (inr TypeError, Sample.connected []).
Proof.
  apply (on_photo_without_sizes (Sample.command_of Sample.alice EmptyString)
           (Sample.connected [])); reflexivity.
Defined.

(** ** What is stored and what is shown *)

Lemma column_truthy v : truthy (column v) = truthy v.
Proof. destruct v; reflexivity. Qed.

Lemma column_or_str v d : or_str (column v) d = or_str v d.
Proof. destruct v; reflexivity. Qed.

Lemma column_escapeMarkdown v :
  SupabaseBot.escapeMarkdown (column v) = SupabaseBot.escapeMarkdown v.
Proof. destruct v; reflexivity. Qed.

(** X20. In [src/bot.js] the caption under which a stored receipt is
    replayed gives, after its own heading, the very text that was sent to
    the group under the heading of a new receipt: the name, the profile
    link, the username, the id, the time and the caption of the sender. *)
Theorem replay_caption_is_forward_caption (ctx : Ctx) (p : string) (t : Z) :
  exists body,
    SupabaseBot.botCaption ctx t = "*New Receipt Received*" ++ body /\
    SupabaseBot.infoCaption (SupabaseBot.new_receipt ctx p t)
    = nl ++ "*Receipt Info*" ++ body.
Proof.
  unfold SupabaseBot.botCaption, SupabaseBot.infoCaption, SupabaseBot.new_receipt.
  cbv zeta.
  cbn [user_id first_name last_name username receipt_file_id receipt_caption
       received_at].
  rewrite !column_truthy, !column_or_str, !column_escapeMarkdown.
  destruct (truthy (or_null (caption ctx))).
  - eexists. split.
    + rewrite append_assoc. reflexivity.
    + rewrite !append_assoc. reflexivity.
  - eexists. split; reflexivity.
Qed.

(** ** From the listing to the detail *)

(** X21. Every stored receipt of the years 1969 to 2068 can be reached from
    the listing of [src/bot.js]: the key of its day is among the keys of the
    listing, and the press on that key fetches it. *)
Theorem receipt_reachable_from_listing (rows : list Receipt) (r : Receipt) :
  In r rows ->
  1969 <= fst (fst (localDate (received_at r))) <= 2068 ->
  let key := format_DDMMYY (received_at r) in
  In key (SupabaseBot.uniqueDates (map received_at rows)) /\
  exists data,
    SupabaseBot.fetch_day key rows = Some data /\ In r data.
Proof.
  intros Hr Hy. cbv zeta. split.
  - apply new_Set_spec. apply in_map, in_map, Hr.
  - pose proof (civil_from_days_valid (localDay (received_at r))) as Hv.
    fold (localDate (received_at r)) in Hv.
    assert (Hv' : valid_date (localDate (received_at r))).
    { destruct (localDate (received_at r)) as [[y m] d]. exact Hv. }
    pose proof (parse_key_of_date _ Hv' Hy) as Hp.
    rewrite <- format_DDMMYY_key in Hp.
    unfold SupabaseBot.fetch_day. rewrite Hp. cbn [option_map].
    destruct (select_range_spec (startOfDay (localDate (received_at r)))
                (endOfDay (localDate (received_at r))) rows)
      as (data & Hsel & _ & _ & Hin).
    exists data. split; [exact Hsel|].
    apply Hin. split; [exact Hr|].
    apply (localDate_iff_range _ _ Hv'). reflexivity.
Qed.

Lemma receipt_reachable_from_listing_witness :
  let rows := receipts (Sample.store []) in
  let r := Sample.receipt_at Sample.jan5_10h in
  In (format_DDMMYY (received_at r))
     (SupabaseBot.uniqueDates (map received_at rows)) /\
  exists data,
    SupabaseBot.fetch_day (format_DDMMYY (received_at r)) rows = Some data /\
    In r data.
Proof.
  apply (receipt_reachable_from_listing (receipts (Sample.store []))
           (Sample.receipt_at Sample.jan5_10h)).
  - right. right. left. reflexivity.
  - vm_compute. split; discriminate.
Defined.

(** X22. A key has room for two digits of the year, read as a year from 1969
    to 2068: whatever the key of the listing pressed (two digits, a slash,
    two digits, a slash, two digits, naming a date), the receipts the date
    detail of [src/bot.js] fetches are of those years, so that a receipt of
    another year is fetched by no button, its own included. *)
Theorem fetched_receipts_are_of_the_century
    (dateStr : string) (ymd : Z * Z * Z) (rows data : list Receipt)
    (r : Receipt) :
  parse_DDMMYY dateStr = Some ymd ->
  SupabaseBot.fetch_day dateStr rows = Some data ->
  In r data ->
  1969 <= fst (fst (localDate (received_at r))) <= 2068.
Proof.
  unfold SupabaseBot.fetch_day. intros Hp Hsel Hr. rewrite Hp in Hsel.
  cbn [option_map] in Hsel.
  destruct (parse_DDMMYY_valid _ _ Hp) as [Hv Hy].
  destruct (select_range_spec (startOfDay ymd) (endOfDay ymd) rows)
    as (data' & Hsel' & _ & _ & Hin).
  assert (data' = data) by congruence. subst data'.
  apply Hin in Hr as [_ Hr].
  apply (localDate_iff_range _ _ Hv) in Hr. rewrite Hr. exact Hy.
Qed.

Lemma fetched_receipts_are_of_the_century_witness :
  1969 <= fst (fst (localDate (received_at (Sample.receipt_at Sample.jan5_10h))))
  <= 2068.
Proof.
  apply (fetched_receipts_are_of_the_century "05/01/24" (2024, 1, 5)
           (receipts (Sample.store []))
           [Sample.receipt_at Sample.jan5_10h;
            Sample.receipt_at (Sample.jan5_10h + 3600000)]
           (Sample.receipt_at Sample.jan5_10h)).
  - reflexivity.
  - reflexivity.
  - left. reflexivity.
Defined.

(** A receipt of the 1st of January 2069 has the key of the 1st of January
    1969, and the press on that key does not fetch it. *)
Example receipt_of_2069_not_fetched :
  let r := Sample.receipt_at (startOfDay (2069, 1, 1) + 10 * 3600000) in
  format_DDMMYY (received_at r) = "01/01/69" /\
  parse_DDMMYY "01/01/69" = Some (1969, 1, 1) /\
  SupabaseBot.fetch_day "01/01/69" [r] = Some [].
Proof. cbv zeta. repeat split; reflexivity. Qed.
